(** * Spatter: the Serial execution context of [Spatter/Configuration.hh]

    A shallow embedding of [ConfigurationBase] and of its specialisation
    [Configuration<Spatter::Serial>], for the default build (neither
    USE_MPI, USE_OPENMP nor USE_CUDA is defined), followed by the properties
    of the kernels, of [setup], of [run] and of [report].  The
    specialisation [Configuration<Spatter::OpenMP>] (USE_OPENMP without
    USE_MPI) and [operator<<] come after the Serial context.

    Conventions.
    - [size_t] and [unsigned long] are 64-bit unsigned integers, held in [Z]
      as the values from 0 to [SIZE_MAX], with the wrap-around of their
      arithmetic written out ([wrap64]).
    - A [double] is an IEEE 754 binary64 value, held as a [spec_float] and
      computed with the operations of [SpecFloat] at precision 53.
    - A [std::vector] is a list; [operator[]] outside the vector is
      undefined behaviour in C++ and is the outcome [Crash OutOfRange] here.
    - Memory is unbounded: [resize] always succeeds.
    - The clock and the C library's [rand] are the two sources of values
      the program does not determine; they are the fields of [Platform]. *)

From Stdlib Require Import ZArith Lia Ascii.
From Stdlib Require Import Floats.SpecFloat.
From stdpp Require Import base list strings pretty.

#[local] Open Scope Z_scope.
#[local] Open Scope string_scope.

(** ** Machine integers and doubles *)

Definition wrap64 (z : Z) : Z := z mod 2 ^ 64.

Definition is_size_t (z : Z) : Prop := 0 <= z < 2 ^ 64.

Definition SIZE_MAX : Z := 2 ^ 64 - 1.

(** [sizeof(size_t)] on the 64-bit targets the code is built for. *)
Definition sizeof_size_t : Z := 8.

Definition double : Type := spec_float.

Definition prec : Z := 53.
Definition emax : Z := 1024.

(** Conversion of an integer to [double], rounding to nearest even. *)
Definition double_of_Z (z : Z) : double := binary_normalize prec emax z 0 false.

Definition ddiv (x y : double) : double := SFdiv prec emax x y.

Definition dzero : double := S754_zero false.

(** The literal [1000000.] *)
Definition million : double := double_of_Z 1000000.

(** ** The platform: clock and [rand] *)

Class Platform : Type := {
  Instant : Type;
  (** the reading the monotonic clock gives at its n-th query *)
  clock : nat -> Instant;
  (** the seconds between two readings, as a [double] *)
  duration : Instant -> Instant -> double;
  (** the value the n-th call of [rand()] returns *)
  rand_value : nat -> Z
}.

Section Spatter.

Context {platform : Platform}.

(** ** Data *)

(** Modelled from the spec: [Spatter/Timer.hh] is included by
    [Configuration.hh] but is not among the sources.  The spec describes
    the timer as a monotonic clock source whose [start()]/[stop()] must be
    paired (a [stop()] without a prior [start()] is a programming error)
    and whose [seconds()] returns the duration of the most recently
    completed start/stop bracket. *)
Record Timer : Type := {
  started : option Instant;
  bracket : option (Instant * Instant)
}.

(** What is written on a stream, one item per [operator<<]. *)
Inductive item : Type :=
| Str (s : string)
| UInt (n : Z)
| Dbl (d : double)
| Fixed
| Endl.

(** The fields of [ConfigurationBase]. *)
Record Configuration : Type := {
  kernel : string;
  pattern : list Z;
  sparse : list double;
  dense : list double;
  nruns : Z;
  verbosity : Z;
  timer : Timer;
  time_seconds : double
}.

(** The process around the object: the two streams and how many times
    the clock and [rand] were queried. *)
Record World : Type := {
  cout : list item;
  cerr : list item;
  clock_reads : nat;
  rand_calls : nat
}.

Record State : Type := { this : Configuration; world : World }.

Inductive fault : Type := OutOfRange | UnpairedStop | NoBracket.

Inductive outcome (A : Type) : Type :=
| Ok (a : A) (s : State)
| Exit (status : Z) (s : State)
| Crash (f : fault).

#[global] Arguments Ok {A} a s.
#[global] Arguments Exit {A} status s.
#[global] Arguments Crash {A} f.

(** ** The monad of member functions *)

Definition M (A : Type) : Type := State -> outcome A.

#[export] Instance M_ret : MRet M := fun A a s => Ok a s.

#[export] Instance M_bind : MBind M := fun A B f m s =>
  match m s with
  | Ok a s' => f a s'
  | Exit status s' => Exit status s'
  | Crash e => Crash e
  end.

Definition get : M State := fun s => Ok s s.

Definition modify_this (f : Configuration -> Configuration) : M unit :=
  fun s => Ok tt {| this := f (this s); world := world s |}.

Definition modify_world (f : World -> World) : M unit :=
  fun s => Ok tt {| this := this s; world := f (world s) |}.

Definition crash {A : Type} (e : fault) : M A := fun _ => Crash e.

(** [exit(status)] *)
Definition exit {A : Type} (status : Z) : M A := fun s => Exit status s.

Definition when (b : bool) (m : M unit) : M unit := if b then m else mret tt.

(** [for (size_t i = lo; i < lo + count; ++i) body(i)] *)
Fixpoint for_from (lo count : nat) (body : nat -> M unit) : M unit :=
  match count with
  | O => mret tt
  | S count' => body lo ;; for_from (S lo) count' body
  end.

(** ** Field updates *)

Definition set_sparse (v : list double) (c : Configuration) : Configuration :=
  {| kernel := kernel c; pattern := pattern c; sparse := v; dense := dense c;
     nruns := nruns c; verbosity := verbosity c; timer := timer c;
     time_seconds := time_seconds c |}.

Definition set_dense (v : list double) (c : Configuration) : Configuration :=
  {| kernel := kernel c; pattern := pattern c; sparse := sparse c; dense := v;
     nruns := nruns c; verbosity := verbosity c; timer := timer c;
     time_seconds := time_seconds c |}.

Definition set_timer (t : Timer) (c : Configuration) : Configuration :=
  {| kernel := kernel c; pattern := pattern c; sparse := sparse c;
     dense := dense c; nruns := nruns c; verbosity := verbosity c; timer := t;
     time_seconds := time_seconds c |}.

Definition set_time_seconds (t : double) (c : Configuration) : Configuration :=
  {| kernel := kernel c; pattern := pattern c; sparse := sparse c;
     dense := dense c; nruns := nruns c; verbosity := verbosity c;
     timer := timer c; time_seconds := t |}.

Definition write_cout (l : list item) (w : World) : World :=
  {| cout := cout w ++ l; cerr := cerr w; clock_reads := clock_reads w;
     rand_calls := rand_calls w |}.

Definition write_cerr (l : list item) (w : World) : World :=
  {| cout := cout w; cerr := cerr w ++ l; clock_reads := clock_reads w;
     rand_calls := rand_calls w |}.

Definition tick_clock (w : World) : World :=
  {| cout := cout w; cerr := cerr w; clock_reads := S (clock_reads w);
     rand_calls := rand_calls w |}.

Definition tick_rand (w : World) : World :=
  {| cout := cout w; cerr := cerr w; clock_reads := clock_reads w;
     rand_calls := S (rand_calls w) |}.

(** ** Primitives *)

Definition print (l : list item) : M unit := modify_world (write_cout l).

Definition eprint (l : list item) : M unit := modify_world (write_cerr l).

(** One query of the clock. *)
Definition now : M Instant :=
  s ← get; modify_world tick_clock ;; mret (clock (clock_reads (world s))).

(** [rand()] *)
Definition rand : M Z :=
  s ← get; modify_world tick_rand ;; mret (rand_value (rand_calls (world s))).

(** Modelled from the spec: [Timer::start()] of the absent
    [Spatter/Timer.hh]; it opens a bracket at the current reading of the
    monotonic clock. *)
Definition timer_start : M unit :=
  t ← now;
  modify_this (fun c =>
    set_timer {| started := Some t; bracket := bracket (timer c) |} c).

(** Modelled from the spec: [Timer::stop()] of the absent
    [Spatter/Timer.hh]; it completes the open bracket at the current
    reading of the clock, and without a prior [start()] it is a
    programming error. *)
Definition timer_stop : M unit :=
  s ← get;
  match started (timer (this s)) with
  | None => crash UnpairedStop
  | Some t0 =>
      t1 ← now;
      modify_this (set_timer {| started := None; bracket := Some (t0, t1) |})
  end.

(** Modelled from the spec: [Timer::seconds()] of the absent
    [Spatter/Timer.hh]; the duration of the most recently completed
    start/stop bracket. *)
Definition timer_seconds : M double :=
  s ← get;
  match bracket (timer (this s)) with
  | None => crash NoBracket
  | Some (t0, t1) => mret (duration t0 t1)
  end.

(** [pattern.size()] *)
Definition pattern_size : M nat := s ← get; mret (length (pattern (this s))).

(** [pattern[i]] *)
Definition pattern_at (i : nat) : M Z :=
  s ← get;
  match pattern (this s) !! i with
  | Some p => mret p
  | None => crash OutOfRange
  end.

(** [sparse[j]] read; [j] is a [size_t], so never negative *)
Definition sparse_at (j : Z) : M double :=
  s ← get;
  match sparse (this s) !! Z.to_nat j with
  | Some v => mret v
  | None => crash OutOfRange
  end.

(** [dense[i]] read *)
Definition dense_at (i : nat) : M double :=
  s ← get;
  match dense (this s) !! i with
  | Some v => mret v
  | None => crash OutOfRange
  end.

(** [sparse[j] = v] *)
Definition sparse_store (j : Z) (v : double) : M unit :=
  s ← get;
  if decide (Z.to_nat j < length (sparse (this s)))%nat
  then modify_this (fun c => set_sparse (<[Z.to_nat j := v]> (sparse c)) c)
  else crash OutOfRange.

(** [dense[i] = v] *)
Definition dense_store (i : nat) (v : double) : M unit :=
  s ← get;
  if decide (i < length (dense (this s)))%nat
  then modify_this (fun c => set_dense (<[i := v]> (dense c)) c)
  else crash OutOfRange.

(** ** [Configuration<Spatter::Serial>::gather] and [scatter] *)

Definition gather_body (i : nat) : M unit :=
  p ← pattern_at i; v ← sparse_at p; dense_store i v.

Definition gather (timed : bool) : M unit :=
  when timed timer_start ;;
  n ← pattern_size;
  for_from 0 n gather_body ;;
  when timed
    (timer_stop ;; t ← timer_seconds; modify_this (set_time_seconds t)).

Definition scatter_body (i : nat) : M unit :=
  p ← pattern_at i; v ← dense_at i; sparse_store p v.

Definition scatter (timed : bool) : M unit :=
  when timed timer_start ;;
  n ← pattern_size;
  for_from 0 n scatter_body ;;
  when timed
    (timer_stop ;; t ← timer_seconds; modify_this (set_time_seconds t)).

(** ** [ConfigurationBase]: constructor, [setup], [run], [report] *)

(** [std::tolower] in the C locale, on an [unsigned char]: the letters
    [A] to [Z] (65 to 90) move to [a] to [z]. *)
Definition is_upper (c : ascii) : bool :=
  ((65 <=? N_of_ascii c) && (N_of_ascii c <=? 90))%N.

Definition tolower (c : ascii) : ascii :=
  if is_upper c then ascii_of_N (N_of_ascii c + 32) else c.

(** [std::transform(s.begin(), s.end(), s.begin(), f)] *)
Fixpoint transform (f : ascii -> ascii) (s : string) : string :=
  match s with
  | EmptyString => EmptyString
  | String c s' => String (f c) (transform f s')
  end.

(** Modelled from the spec: the default-constructed [Timer] of the absent
    [Spatter/Timer.hh], with no bracket open or completed. *)
Definition fresh_timer : Timer := {| started := None; bracket := None |}.

(** The member initialisers and the body of the constructor of
    [ConfigurationBase]: the kernel name is stored in lower case. *)
Definition ConfigurationBase_new (k : string) (p : list Z) (n v : Z)
  : Configuration :=
  {| kernel := transform tolower k; pattern := p; sparse := []; dense := [];
     nruns := n; verbosity := v; timer := fresh_timer;
     time_seconds := dzero |}.

(** [v.resize(n)]: truncation, or extension with value-initialised
    elements. *)
Definition resize (n : nat) (v : list double) : list double :=
  take n v ++ replicate (n - length v) dzero.

(** The loop that leaves the largest element of the pattern in
    [max_pattern_val], which starts at 0. *)
Definition max_pattern_val (p : list Z) : Z :=
  fold_left (fun m x => if decide (x > m) then x else m) p 0.

Definition tab : string := String "009" EmptyString.

(** [dense[i] = rand()] and [sparse[i] = rand()] *)
Definition fill_dense_body (i : nat) : M unit :=
  r ← rand; dense_store i (double_of_Z r).

Definition fill_sparse_body (i : nat) : M unit :=
  r ← rand; sparse_store (Z.of_nat i) (double_of_Z r).

Definition ConfigurationBase_setup : M unit :=
  n ← pattern_size;
  (if decide (n = 0%nat)
   then eprint [Str "Pattern needs to have length of at least 1"; Endl] ;;
        exit 1
   else mret tt) ;;
  modify_this (fun c => set_dense (resize n (dense c)) c) ;;
  for_from 0 n fill_dense_body ;;
  s ← get;
  let m := max_pattern_val (pattern (this s)) in
  let size := Z.to_nat (wrap64 (m + 1)) in
  modify_this (fun c => set_sparse (resize size (sparse c)) c) ;;
  for_from 0 size fill_sparse_body ;;
  s ← get;
  when (bool_decide (verbosity (this s) >= 3))
    (print [Str "Pattern Array Size: "; UInt (Z.of_nat n);
            Str (tab ++ "Dense Array Size: ");
            UInt (Z.of_nat (length (dense (this s))));
            Str (tab ++ "Sparse Array Size: ");
            UInt (Z.of_nat (length (sparse (this s))));
            Str (tab ++ "Max Pattern Val: "); UInt m; Endl]).

Definition run (timed : bool) : M Z :=
  s ← get;
  if decide (kernel (this s) = "gather") then gather timed ;; mret 0
  else if decide (kernel (this s) = "scatter") then scatter timed ;; mret 0
  else eprint [Str "Invalid Kernel Type"; Endl] ;; mret (-1).

(** [nruns * pattern.size() * sizeof(size_t)], in [size_t] arithmetic *)
Definition total_bytes_moved (c : Configuration) : Z :=
  wrap64 (wrap64 (nruns c * Z.of_nat (length (pattern c))) * sizeof_size_t).

(** [pattern.size() * sizeof(size_t)] *)
Definition bytes_moved_per_run (c : Configuration) : Z :=
  wrap64 (Z.of_nat (length (pattern c)) * sizeof_size_t).

(** [(double)(nruns * pattern.size() * sizeof(size_t)) / time_seconds /
    1000000.] *)
Definition average_bandwidth (c : Configuration) : double :=
  ddiv (ddiv (double_of_Z (total_bytes_moved c)) (time_seconds c)) million.

Definition ConfigurationBase_report : M unit :=
  s ← get;
  let c := this s in
  print [UInt (total_bytes_moved c); Str " Total Bytes Moved"; Endl] ;;
  print [UInt (bytes_moved_per_run c); Str " Bytes Moved per Run"; Endl] ;;
  print [UInt (nruns c); Str " Runs took "; Fixed; Dbl (time_seconds c);
         Str " Seconds"; Endl] ;;
  print [Str "Average Bandwidth: "; Dbl (average_bandwidth c); Str " MB/s";
         Endl].

(** ** [Configuration<Spatter::Serial>]: [report], [setup], constructor *)

Definition report : M unit :=
  print [Str "Spatter Serial Report"; Endl] ;; ConfigurationBase_report.

Definition setup : M unit :=
  s ← get;
  when (bool_decide (verbosity (this s) >= 3))
    (print [Str "Spatter Serial Setup"; Endl]) ;;
  ConfigurationBase_setup.

(** [Configuration<Spatter::Serial> c(k, p, n, v)], in the process [w]. *)
Definition Configuration_Serial (k : string) (p : list Z) (n v : Z) (w : World)
  : outcome unit :=
  setup {| this := ConfigurationBase_new k p n v; world := w |}.

(** ** [Configuration<Spatter::OpenMP>] *)

(** The loop under [#pragma omp parallel for simd]: the iterations are
    handed to the threads and take effect in an order the code does not
    fix.  An execution is described by its schedule, the list of the
    iterations in the order they take effect. *)
Fixpoint for_each (schedule : list nat) (body : nat -> M unit) : M unit :=
  match schedule with
  | [] => mret tt
  | i :: rest => body i ;; for_each rest body
  end.

(** The schedules of a loop of [n] iterations: every iteration once. *)
Definition is_schedule (schedule : list nat) (n : nat) : Prop :=
  schedule ≡ₚ seq 0 n.

Definition OpenMP_gather (schedule : list nat) (timed : bool) : M unit :=
  when timed timer_start ;;
  for_each schedule gather_body ;;
  when timed
    (timer_stop ;; t ← timer_seconds; modify_this (set_time_seconds t)).

Definition OpenMP_scatter (schedule : list nat) (timed : bool) : M unit :=
  when timed timer_start ;;
  for_each schedule scatter_body ;;
  when timed
    (timer_stop ;; t ← timer_seconds; modify_this (set_time_seconds t)).

Definition OpenMP_report : M unit :=
  print [Str "Spatter OpenMP Report"; Endl] ;; ConfigurationBase_report.

Definition OpenMP_setup : M unit :=
  s ← get;
  when (bool_decide (verbosity (this s) >= 3))
    (print [Str "Spatter OpenMP Setup"; Endl]) ;;
  ConfigurationBase_setup.

(** [Configuration<Spatter::OpenMP> c(k, p, n, v)], in the process [w]. *)
Definition Configuration_OpenMP (k : string) (p : list Z) (n v : Z) (w : World)
  : outcome unit :=
  OpenMP_setup {| this := ConfigurationBase_new k p n v; world := w |}.

(** ** [operator<<] for a [ConfigurationBase] *)

(** [out << n] for a [size_t], under the default flags of a fresh stream:
    the decimal digits of [n]. *)
Definition show_size_t (n : Z) : string := pretty (Z.to_N n).

(** [std::copy(first, last, std::experimental::make_ostream_joiner(out,
    delim))]: the delimiter is written before every element but the
    first. *)
Fixpoint ostream_joiner (delim : string) (first : bool) (l : list Z)
  : string :=
  match l with
  | [] => ""
  | x :: rest =>
      (if first then "" else delim) +:+ show_size_t x +:+
      ostream_joiner delim false rest
  end.

Definition newline : string := String "010" EmptyString.

(** The text gathered in [config_output]. *)
Definition config_output (c : Configuration) : string :=
  (if bool_decide (verbosity c >= 1) then "Kernel: " +:+ kernel c else "") +:+
  (if bool_decide (verbosity c >= 2)
   then newline +:+ "Pattern: " +:+ ostream_joiner ", " true (pattern c)
   else "").

(** What [out << config] writes on [out]. *)
Definition operator_shl (c : Configuration) : list item :=
  [Str (config_output c); Endl].

End Spatter.

(** ** A concrete platform, for running the model *)

Definition counting_platform : Platform :=
  {| Instant := Z;
     clock := fun n => Z.of_nat (n * n);
     duration := fun t0 t1 => double_of_Z (t1 - t0);
     rand_value := fun n => 7 * Z.of_nat n + 3 |}.

Definition quiet_world : World :=
  {| cout := []; cerr := []; clock_reads := 0; rand_calls := 0 |}.

Definition doubles (l : list Z) : list double := map double_of_Z l.

(** A context with the given buffers, as [setup] could have left it. *)
Definition context_of (k : string) (p sp de : list Z) (n : Z) (t : double)
  : @State counting_platform :=
  {| this := {| kernel := k; pattern := p; sparse := doubles sp;
                dense := doubles de; nruns := n; verbosity := 0;
                timer := fresh_timer; time_seconds := t |};
     world := quiet_world |}.

Definition gather_demo : @State counting_platform :=
  context_of "gather" [0; 1; 2; 3] [10; 11; 12; 13; 14] [0; 0; 0; 0] 10 dzero.

Definition scatter_demo : @State counting_platform :=
  context_of "scatter" [3; 0; 2; 3] [10; 11; 12; 13] [20; 21; 22; 23] 10 dzero.

Definition roundtrip_demo : @State counting_platform :=
  context_of "gather" [2; 0; 3] [10; 11; 12; 13] [0; 0; 0] 10 dzero.

Definition report_demo : @State counting_platform :=
  context_of "gather" [0; 1; 2; 3] [10; 11; 12; 13] [0; 0; 0; 0] 10
    (double_of_Z 1).

(** The state an outcome carries. *)
Definition state_of {platform : Platform} {A : Type}
  (o : outcome A) (otherwise : State) : State :=
  match o with
  | Ok _ s => s
  | Exit _ s => s
  | Crash _ => otherwise
  end.

(** The contexts the constructor builds from four inputs, evaluated. *)
Definition mixed_case_context : @State counting_platform :=
  Eval vm_compute in
  state_of (Configuration_Serial "GaTheR" [3; 0; 2; 3] 10 0 quiet_world)
    gather_demo.


Definition size_max_context : @State counting_platform :=
  Eval vm_compute in
  state_of (Configuration_Serial "gather" [SIZE_MAX] 10 0 quiet_world)
    gather_demo.

Definition fresh_context : @State counting_platform :=
  Eval vm_compute in
  state_of (Configuration_Serial "gather" [0; 1; 2; 3] 10 0 quiet_world)
    gather_demo.

Definition many_runs_context : @State counting_platform :=
  Eval vm_compute in
  state_of (Configuration_Serial "gather" [0] (2 ^ 61) 0 quiet_world)
    gather_demo.

(** The context the constructor builds from a pattern without repeated
    indices, and what an untimed [gather] and a timed [scatter] make of
    [fresh_context]. *)
Definition roundtrip_context : @State counting_platform :=
  Eval vm_compute in
  state_of (Configuration_Serial "gather" [2; 0; 3] 10 0 quiet_world)
    gather_demo.

Definition gathered_context : @State counting_platform :=
  Eval vm_compute in state_of (gather false fresh_context) fresh_context.

Definition scattered_context : @State counting_platform :=
  Eval vm_compute in state_of (scatter true fresh_context) fresh_context.

(** A context whose second pattern entry names no slot of its sparse
    buffer. *)
Definition misfit_demo : @State counting_platform :=
  context_of "gather" [0; 5] [10; 11] [0; 0] 10 dzero.

(** Two contexts that differ in the case of the kernel name given, in the
    run count and in the verbosity. *)
Definition verbose_context : @State counting_platform :=
  Eval vm_compute in
  state_of (Configuration_Serial "gather" [3; 0; 2; 3] 10 2 quiet_world)
    gather_demo.

Definition chatty_context : @State counting_platform :=
  Eval vm_compute in
  state_of (Configuration_Serial "GATHER" [3; 0; 2; 3] 99 3 quiet_world)
    gather_demo.

(** ** Invariants and the vocabulary of the properties *)

Section Invariants.

Context {platform : Platform}.

(** Every access of the two kernels falls inside its buffer. *)
Definition in_bounds (c : Configuration) : Prop :=
  length (dense c) = length (pattern c) /\
  Forall (fun p => 0 <= p < Z.of_nat (length (sparse c))) (pattern c).

(** [m] is the largest element of [p]. *)
Definition is_max (m : Z) (p : list Z) : Prop :=
  m ∈ p /\ forall x, x ∈ p -> x <= m.

(** The buffer sizes the data model asks for. *)
Definition buffer_sizing (c : Configuration) : Prop :=
  length (dense c) = length (pattern c) /\
  exists m, is_max m (pattern c) /\ Z.of_nat (length (sparse c)) = m + 1.

(** The state a kernel call leaves, given what its loop did to the
    object: untouched when the call is not timed, and otherwise with two
    more clock readings, the bracket they form in the timer and its
    duration in [time_seconds]. *)
Definition kernel_result (timed : bool) (c : Configuration) (w : World)
  : State :=
  if timed then
    let t0 := clock (clock_reads w) in
    let t1 := clock (S (clock_reads w)) in
    {| this := set_time_seconds (duration t0 t1)
                 (set_timer {| started := None; bracket := Some (t0, t1) |} c);
       world := tick_clock (tick_clock w) |}
  else {| this := c; world := w |}.

(** Two worlds that differ in the consumption of [rand] at most. *)
Definition same_streams (w w' : World) : Prop :=
  cout w' = cout w /\ cerr w' = cerr w /\ clock_reads w' = clock_reads w.

(** Equality of two characters, and of two strings, when the case of
    letters is ignored. *)
Definition same_letter (a b : ascii) : bool :=
  ((N_of_ascii a =? N_of_ascii b) ||
   (is_upper a && (N_of_ascii b =? N_of_ascii a + 32)) ||
   (is_upper b && (N_of_ascii a =? N_of_ascii b + 32)))%N.

Fixpoint iequals (s t : string) : bool :=
  match s, t with
  | EmptyString, EmptyString => true
  | String a s', String b t' => same_letter a b && iequals s' t'
  | _, _ => false
  end.

(** [d] is a normal positive [double] within half a unit in the last
    place of the rational [num / den]. *)
Definition rounds_ratio (num den : Z) (d : double) : Prop :=
  match d with
  | S754_finite false m e =>
      2 ^ 52 <= Z.pos m < 2 ^ 53 /\ -1074 < e < 0 /\ 0 < den /\
      2 * Z.abs (Z.pos m * den - num * 2 ^ (- e)) <= den
  | _ => False
  end.

(** Everything one call of the Serial [report] writes on [cout]. *)
Definition report_output (c : Configuration) : list item :=
  [Str "Spatter Serial Report"; Endl;
   UInt (total_bytes_moved c); Str " Total Bytes Moved"; Endl;
   UInt (bytes_moved_per_run c); Str " Bytes Moved per Run"; Endl;
   UInt (nruns c); Str " Runs took "; Fixed; Dbl (time_seconds c);
   Str " Seconds"; Endl;
   Str "Average Bandwidth: "; Dbl (average_bandwidth c); Str " MB/s"; Endl].

(** A call a user of the context can make, and sequences of them. *)
Inductive call : Type :=
| Gather (timed : bool)
| Scatter (timed : bool)
| Run (timed : bool)
| Report.

Definition perform (k : call) : M unit :=
  match k with
  | Gather timed => gather timed
  | Scatter timed => scatter timed
  | Run timed => run timed ;; mret tt
  | Report => report
  end.

Fixpoint perform_all (ks : list call) : M unit :=
  match ks with
  | [] => mret tt
  | k :: ks' => perform k ;; perform_all ks'
  end.

Definition timed_kernel_call (k : call) : Prop :=
  k = Gather true \/ k = Scatter true.

(** The contexts the Serial constructor builds from the pattern [p]: the
    one it returns, and the ones any sequence of calls makes of it. *)
Definition built (p : list Z) (s : State) : Prop :=
  exists (k : string) (n v : Z) (w : World) (s0 : State) (ks : list call),
    Configuration_Serial k p n v w = Ok tt s0 /\
    perform_all ks s0 = Ok tt s.

(** The banner a constructor writes before [ConfigurationBase::setup],
    and the line of sizes that [setup] writes at its end, both at
    verbosity 3 or more. *)
Definition setup_banner (v : Z) (name : string) : list item :=
  if bool_decide (v >= 3) then [Str name; Endl] else [].

Definition setup_output (c : Configuration) : list item :=
  if bool_decide (verbosity c >= 3) then
    [Str "Pattern Array Size: "; UInt (Z.of_nat (length (pattern c)));
     Str (tab ++ "Dense Array Size: "); UInt (Z.of_nat (length (dense c)));
     Str (tab ++ "Sparse Array Size: "); UInt (Z.of_nat (length (sparse c)));
     Str (tab ++ "Max Pattern Val: "); UInt (max_pattern_val (pattern c));
     Endl]
  else [].

(** The size [setup] gives the sparse buffer of a pattern. *)
Definition sparse_size (p : list Z) : nat :=
  Z.to_nat (wrap64 (max_pattern_val p + 1)).

(** The value [setup] stores from the [n]-th call of [rand]. *)
Definition rand_double (n : nat) : double := double_of_Z (rand_value n).

(** The dense buffer already holds what [gather] would put in it. *)
Definition gathered (c : Configuration) : Prop :=
  forall (i : nat) (p : Z),
    pattern c !! i = Some p -> dense c !! i = sparse c !! Z.to_nat p.

(** The sparse buffer already holds what [scatter] would leave in it. *)
Definition scattered (c : Configuration) : Prop :=
  forall (i : nat) (p : Z),
    pattern c !! i = Some p ->
    (forall i', (i < i')%nat -> pattern c !! i' <> Some p) ->
    sparse c !! Z.to_nat p = dense c !! i.

(** A [double] that is not NaN and not negative: [+0], a positive finite
    value or [+infinity]. *)
Definition nonneg_double (d : double) : Prop :=
  match d with
  | S754_zero false | S754_finite false _ _ | S754_infinity false => True
  | _ => False
  end.

(** A decimal digit, and the strings of decimal digits. *)
Definition is_digit (a : ascii) : bool :=
  ((48 <=? N_of_ascii a) && (N_of_ascii a <=? 57))%N.

Fixpoint digit_string (s : string) : Prop :=
  match s with
  | EmptyString => True
  | String a s' => is_digit a = true /\ digit_string s'
  end.

(** A string that is empty or starts with a character that is no digit. *)
Definition stops_digits (s : string) : Prop :=
  match s with
  | EmptyString => True
  | String a _ => is_digit a = false
  end.

(** A string without line feed. *)
Fixpoint one_line (s : string) : Prop :=
  match s with
  | EmptyString => True
  | String a s' => a <> "010"%char /\ one_line s'
  end.

End Invariants.

(** * Properties *)

Section Properties.

Context {platform : Platform}.

Lemma set_dense_same (c : Configuration) : set_dense (dense c) c = c.
Proof. by destruct c. Qed.

Lemma set_sparse_same (c : Configuration) : set_sparse (sparse c) c = c.
Proof. by destruct c. Qed.

Lemma gather_body_ok (i : nat) (p : Z) (v : double) c w :
  pattern c !! i = Some p ->
  sparse c !! Z.to_nat p = Some v ->
  (i < length (dense c))%nat ->
  gather_body i {| this := c; world := w |} =
  Ok tt {| this := set_dense (<[i := v]> (dense c)) c; world := w |}.
Proof.
  intros Hp Hv Hi.
  unfold gather_body, pattern_at, sparse_at, dense_store, mbind, M_bind, get.
  simpl. rewrite Hp. simpl. rewrite Hv. simpl.
  by rewrite decide_True.
Qed.

Lemma scatter_body_ok (i : nat) (p : Z) (v : double) c w :
  pattern c !! i = Some p ->
  dense c !! i = Some v ->
  (Z.to_nat p < length (sparse c))%nat ->
  scatter_body i {| this := c; world := w |} =
  Ok tt {| this := set_sparse (<[Z.to_nat p := v]> (sparse c)) c; world := w |}.
Proof.
  intros Hp Hv Hi.
  unfold scatter_body, pattern_at, dense_at, sparse_store, mbind, M_bind, get.
  simpl. rewrite Hp. simpl. rewrite Hv. simpl.
  by rewrite decide_True.
Qed.

Lemma for_from_step (lo count : nat) (body : nat -> M unit) s s' :
  body lo s = Ok tt s' ->
  for_from lo (S count) body s = for_from (S lo) count body s'.
Proof. intros H. simpl. unfold mbind, M_bind. by rewrite H. Qed.

Lemma in_bounds_lookup c (i : nat) (p : Z) :
  Forall (fun p => 0 <= p < Z.of_nat (length (sparse c))) (pattern c) ->
  pattern c !! i = Some p ->
  0 <= p /\ (Z.to_nat p < length (sparse c))%nat.
Proof.
  intros HF Hp. rewrite Forall_lookup in HF. specialize (HF i p Hp). lia.
Qed.

(** The gather loop from position [lo] on: positions before [lo] keep
    their value, the others receive the sparse element their pattern entry
    names. *)
Lemma gather_loop_spec (count : nat) : forall (lo : nat) c w,
  (lo + count)%nat = length (pattern c) ->
  length (dense c) = length (pattern c) ->
  Forall (fun p => 0 <= p < Z.of_nat (length (sparse c))) (pattern c) ->
  exists d,
    for_from lo count gather_body {| this := c; world := w |} =
      Ok tt {| this := set_dense d c; world := w |} /\
    length d = length (dense c) /\
    (forall j, (j < lo)%nat -> d !! j = dense c !! j) /\
    (forall j p, (lo <= j)%nat -> pattern c !! j = Some p ->
       d !! j = sparse c !! Z.to_nat p).
Proof.
  induction count as [|count IH]; intros lo c w Hlen Hd HF.
  - exists (dense c). rewrite set_dense_same.
    split; [done|]. split; [done|]. split; [done|].
    intros j p Hj Hp. apply lookup_lt_Some in Hp. lia.
  - destruct (lookup_lt_is_Some_2 (pattern c) lo) as [p Hp]; [lia|].
    destruct (in_bounds_lookup c lo p HF Hp) as [Hp0 Hps].
    destruct (lookup_lt_is_Some_2 (sparse c) (Z.to_nat p) Hps) as [v Hv].
    rewrite (for_from_step _ _ _ _ _ (gather_body_ok lo p v c w Hp Hv ltac:(lia))).
    destruct (IH (S lo) (set_dense (<[lo := v]> (dense c)) c) w)
      as (d & Hrun & Hdl & Hlow & Hhigh); simpl.
    + lia.
    + by rewrite length_insert.
    + done.
    + exists d. simpl in *. rewrite length_insert in Hdl.
      split; [exact Hrun|]. split; [done|]. split.
      * intros j Hj. rewrite Hlow by lia. apply list_lookup_insert_ne. lia.
      * intros j q Hj Hq. destruct (decide (j = lo)) as [->|Hne].
        -- rewrite Hlow by lia. rewrite list_lookup_insert_eq by lia. congruence.
        -- apply Hhigh; [lia|done].
Qed.

(** The scatter loop from position [lo] on: a slot named by the pattern
    from [lo] on holds the dense element of the last position naming it,
    and the other slots keep their value. *)
Lemma scatter_loop_spec (count : nat) : forall (lo : nat) c w,
  (lo + count)%nat = length (pattern c) ->
  length (dense c) = length (pattern c) ->
  Forall (fun p => 0 <= p < Z.of_nat (length (sparse c))) (pattern c) ->
  exists sp,
    for_from lo count scatter_body {| this := c; world := w |} =
      Ok tt {| this := set_sparse sp c; world := w |} /\
    length sp = length (sparse c) /\
    (forall i p, (lo <= i)%nat -> pattern c !! i = Some p ->
       (forall i', (i < i')%nat -> pattern c !! i' <> Some p) ->
       sp !! Z.to_nat p = dense c !! i) /\
    (forall j : nat,
       (forall i, (lo <= i)%nat -> pattern c !! i <> Some (Z.of_nat j)) ->
       sp !! j = sparse c !! j).
Proof.
  induction count as [|count IH]; intros lo c w Hlen Hd HF.
  - exists (sparse c). rewrite set_sparse_same.
    split; [done|]. split; [done|]. split; [|done].
    intros i p Hi Hp. apply lookup_lt_Some in Hp. lia.
  - destruct (lookup_lt_is_Some_2 (pattern c) lo) as [p Hp]; [lia|].
    destruct (in_bounds_lookup c lo p HF Hp) as [Hp0 Hps].
    destruct (lookup_lt_is_Some_2 (dense c) lo) as [v Hv]; [lia|].
    rewrite (for_from_step _ _ _ _ _ (scatter_body_ok lo p v c w Hp Hv Hps)).
    destruct (IH (S lo) (set_sparse (<[Z.to_nat p := v]> (sparse c)) c) w)
      as (sp & Hrun & Hsl & Hlast & Hfree); simpl.
    + lia.
    + done.
    + by rewrite length_insert.
    + exists sp. simpl in *. rewrite length_insert in Hsl.
      split; [exact Hrun|]. split; [done|]. split.
      * intros i q Hi Hq Hafter. destruct (decide (i = lo)) as [->|Hne].
        -- assert (q = p) as -> by congruence.
           rewrite Hfree.
           ++ rewrite list_lookup_insert_eq by lia. congruence.
           ++ intros i' Hi'. rewrite Z2Nat.id by lia. apply Hafter. lia.
        -- apply Hlast; [lia|done|done].
      * intros j Hj. rewrite Hfree.
        -- apply list_lookup_insert_ne. intros <-.
           apply (Hj lo); [lia|]. rewrite Z2Nat.id by lia. done.
        -- intros i Hi. apply Hj. lia.
Qed.

Lemma run_bind_Ok {A B : Type} (m : M A) (f : A -> M B) s a s' :
  m s = Ok a s' -> (m ≫= f) s = f a s'.
Proof. intros H. unfold mbind, M_bind. by rewrite H. Qed.

Lemma timer_start_run c w :
  timer_start {| this := c; world := w |} =
  Ok tt {| this := set_timer {| started := Some (clock (clock_reads w));
                                bracket := bracket (timer c) |} c;
           world := tick_clock w |}.
Proof. reflexivity. Qed.

Lemma pattern_size_run s : pattern_size s = Ok (length (pattern (this s))) s.
Proof. reflexivity. Qed.

(** What follows the loop in a timed call, when the timer was started at
    [t0]. *)
Lemma timer_epilogue_run c w (t0 : Instant) :
  started (timer c) = Some t0 ->
  (timer_stop ;; t ← timer_seconds; modify_this (set_time_seconds t))
    {| this := c; world := w |} =
  Ok tt {| this := set_time_seconds (duration t0 (clock (clock_reads w)))
                     (set_timer {| started := None;
                                   bracket := Some (t0, clock (clock_reads w)) |} c);
           world := tick_clock w |}.
Proof.
  intros H. unfold timer_stop, timer_seconds, mbind, M_bind, get. simpl.
  rewrite H. reflexivity.
Qed.

Ltac step_with H := erewrite run_bind_Ok by apply H.

(** A call of [gather] on a context whose accesses are in bounds. *)
Lemma gather_run (timed : bool) c w :
  in_bounds c ->
  exists d,
    gather timed {| this := c; world := w |} =
      Ok tt (kernel_result timed (set_dense d c) w) /\
    length d = length (dense c) /\
    (forall i p, pattern c !! i = Some p -> d !! i = sparse c !! Z.to_nat p).
Proof.
  intros [Hd HF]. unfold gather. destruct timed; simpl when.
  - pose (c0 := set_timer {| started := Some (clock (clock_reads w));
                             bracket := bracket (timer c) |} c).
    destruct (gather_loop_spec (length (pattern c)) 0 c0 (tick_clock w))
      as (d & Hrun & Hlen & _ & Hget); [done..|].
    exists d. split; [|split; [done|]].
    + step_with (timer_start_run c w). step_with pattern_size_run.
      step_with Hrun. by rewrite (timer_epilogue_run _ _ (clock (clock_reads w))).
    + intros i p Hp. apply Hget; [lia|done].
  - destruct (gather_loop_spec (length (pattern c)) 0 c w)
      as (d & Hrun & Hlen & _ & Hget); [done..|].
    exists d. split; [|split; [done|]].
    + unfold mbind, M_bind. simpl. unfold mbind, M_bind in Hrun. by rewrite Hrun.
    + intros i p Hp. apply Hget; [lia|done].
Qed.

(** A call of [scatter] on a context whose accesses are in bounds. *)
Lemma scatter_run (timed : bool) c w :
  in_bounds c ->
  exists sp,
    scatter timed {| this := c; world := w |} =
      Ok tt (kernel_result timed (set_sparse sp c) w) /\
    length sp = length (sparse c) /\
    (forall i p, pattern c !! i = Some p ->
       (forall i', (i < i')%nat -> pattern c !! i' <> Some p) ->
       sp !! Z.to_nat p = dense c !! i) /\
    (forall j : nat, Z.of_nat j ∉ pattern c -> sp !! j = sparse c !! j).
Proof.
  intros [Hd HF]. unfold scatter.
  assert (Hnotin : forall (j : nat) (lo : nat), Z.of_nat j ∉ pattern c ->
            forall i, (lo <= i)%nat -> pattern c !! i <> Some (Z.of_nat j)).
  { intros j lo Hj i _ Hi. apply Hj. by eapply list_elem_of_lookup_2. }
  destruct timed; simpl when.
  - pose (c0 := set_timer {| started := Some (clock (clock_reads w));
                             bracket := bracket (timer c) |} c).
    destruct (scatter_loop_spec (length (pattern c)) 0 c0 (tick_clock w))
      as (sp & Hrun & Hlen & Hlast & Hfree); [done..|].
    exists sp. split; [|split; [done|split]].
    + step_with (timer_start_run c w). step_with pattern_size_run.
      step_with Hrun. by rewrite (timer_epilogue_run _ _ (clock (clock_reads w))).
    + intros i p Hp Hafter. apply (Hlast i p); [lia|done|done].
    + intros j Hj. apply Hfree. by apply Hnotin.
  - destruct (scatter_loop_spec (length (pattern c)) 0 c w)
      as (sp & Hrun & Hlen & Hlast & Hfree); [done..|].
    exists sp. split; [|split; [done|split]].
    + unfold mbind, M_bind. simpl. unfold mbind, M_bind in Hrun. by rewrite Hrun.
    + intros i p Hp Hafter. apply (Hlast i p); [lia|done|done].
    + intros j Hj. apply Hfree. by apply Hnotin.
Qed.

Lemma kernel_result_frame (timed : bool) c w :
  let s' := kernel_result timed c w in
  kernel (this s') = kernel c /\ pattern (this s') = pattern c /\
  sparse (this s') = sparse c /\ dense (this s') = dense c /\
  nruns (this s') = nruns c /\ verbosity (this s') = verbosity c /\
  cout (world s') = cout w /\ cerr (world s') = cerr w /\
  rand_calls (world s') = rand_calls w.
Proof. by destruct timed. Qed.

(** On a context whose buffers the pattern fits, [gather] completes
    and leaves in [dense[i]] the former [sparse[pattern[i]]], for every
    position [i] of the pattern; with the pattern [0,1,2,3] and a sparse
    buffer that starts with [s0,s1,s2,s3], the dense buffer it leaves is
    exactly [s0,s1,s2,s3]. *)
Lemma gather_on_fitting_context (timed : bool) (s : State) :
  in_bounds (this s) ->
  exists s',
    gather timed s = Ok tt s' /\
    length (dense (this s')) = length (pattern (this s)) /\
    (forall (i : nat) (p : Z),
       pattern (this s) !! i = Some p ->
       dense (this s') !! i = sparse (this s) !! Z.to_nat p) /\
    (forall s0 s1 s2 s3 rest,
       pattern (this s) = [0; 1; 2; 3] ->
       sparse (this s) = s0 :: s1 :: s2 :: s3 :: rest ->
       dense (this s') = [s0; s1; s2; s3]).
Proof.
  destruct s as [c w]. simpl. intros Hb.
  destruct (gather_run timed c w Hb) as (d & Hrun & Hlen & Hget).
  destruct (kernel_result_frame timed (set_dense d c) w)
    as (_ & _ & _ & Hdense & _).
  exists (kernel_result timed (set_dense d c) w).
  rewrite Hdense. simpl. destruct Hb as [Hd HF].
  split; [done|]. split; [lia|]. split; [done|].
  intros s0 s1 s2 s3 rest Hpat Hsp.
  rewrite Hpat in Hd, Hget. rewrite Hsp in Hget. simpl in Hd.
  pose proof (Hget 0%nat 0 eq_refl) as H0.
  pose proof (Hget 1%nat 1 eq_refl) as H1.
  pose proof (Hget 2%nat 2 eq_refl) as H2.
  pose proof (Hget 3%nat 3 eq_refl) as H3.
  destruct d as [|d0 [|d1 [|d2 [|d3 [|? ?]]]]]; simpl in *; try lia.
  congruence.
Qed.

(** On a context whose buffers the pattern fits, with or without
    repeated indices in the pattern, [scatter] completes:
    a sparse slot [j] that occurs in the pattern holds the former
    [dense[i_last]], where [i_last] is the largest position with
    [pattern[i_last] = j], and a sparse slot whose index does not occur in
    the pattern keeps its value. *)
Lemma scatter_on_fitting_context (timed : bool) (s : State) :
  in_bounds (this s) ->
  exists s',
    scatter timed s = Ok tt s' /\
    length (sparse (this s')) = length (sparse (this s)) /\
    (forall (j : Z) (i_last : nat),
       pattern (this s) !! i_last = Some j ->
       (forall i, (i_last < i)%nat -> pattern (this s) !! i <> Some j) ->
       sparse (this s') !! Z.to_nat j = dense (this s) !! i_last) /\
    (forall j : nat,
       Z.of_nat j ∉ pattern (this s) ->
       sparse (this s') !! j = sparse (this s) !! j).
Proof.
  destruct s as [c w]. simpl. intros Hb.
  destruct (scatter_run timed c w Hb) as (sp & Hrun & Hlen & Hlast & Hfree).
  destruct (kernel_result_frame timed (set_sparse sp c) w)
    as (_ & _ & Hsparse & _).
  exists (kernel_result timed (set_sparse sp c) w).
  rewrite Hsparse. simpl. split; [done|]. split; [done|].
  split.
  - intros j i Hj Hafter. by apply Hlast.
  - done.
Qed.

(** The scatter loop changes nothing in the sparse buffer when every
    dense element already equals the sparse element its pattern entry
    names. *)
Lemma scatter_loop_fixed (count : nat) : forall (lo : nat) c w,
  (lo + count)%nat = length (pattern c) ->
  length (dense c) = length (pattern c) ->
  Forall (fun p => 0 <= p < Z.of_nat (length (sparse c))) (pattern c) ->
  (forall i p, pattern c !! i = Some p -> dense c !! i = sparse c !! Z.to_nat p) ->
  for_from lo count scatter_body {| this := c; world := w |} =
  Ok tt {| this := c; world := w |}.
Proof.
  induction count as [|count IH]; intros lo c w Hlen Hd HF Heq; [done|].
  destruct (lookup_lt_is_Some_2 (pattern c) lo) as [p Hp]; [lia|].
  destruct (in_bounds_lookup c lo p HF Hp) as [Hp0 Hps].
  destruct (lookup_lt_is_Some_2 (dense c) lo) as [v Hv]; [lia|].
  rewrite (for_from_step _ _ _ _ _ (scatter_body_ok lo p v c w Hp Hv Hps)).
  rewrite list_insert_id by (rewrite <- (Heq lo p Hp); exact Hv).
  rewrite set_sparse_same. apply IH; [lia|done..].
Qed.

Lemma scatter_fixed (timed : bool) c w :
  in_bounds c ->
  (forall i p, pattern c !! i = Some p -> dense c !! i = sparse c !! Z.to_nat p) ->
  scatter timed {| this := c; world := w |} = Ok tt (kernel_result timed c w).
Proof.
  intros [Hd HF] Heq. unfold scatter. destruct timed; simpl when.
  - pose (c0 := set_timer {| started := Some (clock (clock_reads w));
                             bracket := bracket (timer c) |} c).
    pose proof (scatter_loop_fixed (length (pattern c)) 0 c0 (tick_clock w)
                  eq_refl Hd HF Heq) as Hrun.
    step_with (timer_start_run c w). step_with pattern_size_run.
    step_with Hrun. by rewrite (timer_epilogue_run _ _ (clock (clock_reads w))).
  - pose proof (scatter_loop_fixed (length (pattern c)) 0 c w
                  eq_refl Hd HF Heq) as Hrun.
    unfold mbind, M_bind. simpl. unfold mbind, M_bind in Hrun. by rewrite Hrun.
Qed.

(** [gather] followed by [scatter] leaves the sparse buffer as it was,
    whatever the pattern. *)
Lemma gather_scatter_sparse (t1 t2 : bool) (s : State) :
  in_bounds (this s) ->
  exists s',
    (gather t1 ;; scatter t2) s = Ok tt s' /\
    sparse (this s') = sparse (this s).
Proof.
  destruct s as [c w]. simpl. intros Hb.
  destruct (gather_run t1 c w Hb) as (d & Hrun & Hlen & Hget).
  destruct (kernel_result_frame t1 (set_dense d c) w)
    as (_ & Hpat & Hsp & Hde & _).
  destruct (kernel_result t1 (set_dense d c) w) as [c1 w1] eqn:E.
  simpl in *.
  assert (Hb1 : in_bounds c1).
  { destruct Hb as [Hd HF]. split; rewrite ?Hpat, ?Hsp, ?Hde; [lia|done]. }
  exists (kernel_result t2 c1 w1). split.
  - step_with Hrun. apply scatter_fixed; [done|].
    rewrite Hpat, Hsp, Hde. exact Hget.
  - destruct (kernel_result_frame t2 c1 w1) as (_ & _ & Hsp2 & _).
    by rewrite Hsp2.
Qed.

Lemma in_bounds_kernel_result (timed : bool) c c' w :
  in_bounds c ->
  pattern c' = pattern c ->
  length (sparse c') = length (sparse c) ->
  length (dense c') = length (dense c) ->
  in_bounds (this (kernel_result timed c' w)).
Proof.
  intros [Hd HF] Hp Hs Hde.
  destruct (kernel_result_frame timed c' w) as (_ & Hp' & Hs' & Hd' & _).
  split; rewrite ?Hp', ?Hs', ?Hd', ?Hp, ?Hs, ?Hde; done.
Qed.

(** One timed kernel call: it completes, the accesses stay in bounds, the
    clock was read twice and [time_seconds] is the duration between these
    two readings. *)
Lemma timed_kernel_call_run (k : call) (s : State) :
  timed_kernel_call k ->
  in_bounds (this s) ->
  exists s',
    perform k s = Ok tt s' /\
    in_bounds (this s') /\
    clock_reads (world s') = S (S (clock_reads (world s))) /\
    time_seconds (this s') =
      duration (clock (clock_reads (world s)))
               (clock (S (clock_reads (world s)))).
Proof.
  destruct s as [c w]. simpl. intros [->| ->] Hb; simpl perform.
  - destruct (gather_run true c w Hb) as (d & Hrun & Hlen & _).
    eexists. split; [exact Hrun|]. split; [|done].
    by apply (in_bounds_kernel_result true c).
  - destruct (scatter_run true c w Hb) as (sp & Hrun & Hlen & _).
    eexists. split; [exact Hrun|]. split; [|done].
    by apply (in_bounds_kernel_result true c).
Qed.

Lemma perform_all_app (ks1 ks2 : list call) (s s1 : State) :
  perform_all ks1 s = Ok tt s1 ->
  perform_all (ks1 ++ ks2) s = perform_all ks2 s1.
Proof.
  revert s. induction ks1 as [|k ks1 IH]; intros s H; simpl in *.
  - by inversion H.
  - unfold mbind, M_bind in *. destruct (perform k s) as [[] s0| |]; [|done..].
    by apply IH.
Qed.

Lemma timed_calls_run (ks : list call) : forall s : State,
  Forall timed_kernel_call ks ->
  in_bounds (this s) ->
  exists s',
    perform_all ks s = Ok tt s' /\
    in_bounds (this s') /\
    clock_reads (world s') = (clock_reads (world s) + 2 * length ks)%nat.
Proof.
  induction ks as [|k ks IH]; intros s HF Hb.
  - exists s. simpl. split; [done|]. split; [done|lia].
  - inversion HF as [|? ? Hk HF']; subst.
    destruct (timed_kernel_call_run k s Hk Hb) as (s1 & Hrun & Hb1 & Hc1 & _).
    destruct (IH s1 HF' Hb1) as (s' & Hrun' & Hb' & Hc').
    exists s'. split; [|split; [done|]].
    + simpl. by step_with Hrun.
    + rewrite Hc', Hc1. simpl. lia.
Qed.

(** After a sequence of timed [gather] and [scatter] calls on a context
    whose buffers the pattern fits, [time_seconds] is the duration of the
    start/stop bracket of the last call alone. *)
Lemma timed_calls_on_fitting_context
  (ks : list call) (k : call) (s : State) :
  Forall timed_kernel_call (ks ++ [k]) ->
  in_bounds (this s) ->
  let r := (clock_reads (world s) + 2 * length ks)%nat in
  exists s',
    perform_all (ks ++ [k]) s = Ok tt s' /\
    time_seconds (this s') = duration (clock r) (clock (S r)).
Proof.
  intros HF Hb r. apply Forall_app in HF as [HF Hk].
  inversion Hk as [|? ? Hk' _]; subst.
  destruct (timed_calls_run ks s HF Hb) as (s1 & Hrun & Hb1 & Hc1).
  destruct (timed_kernel_call_run k s1 Hk' Hb1) as (s' & Hrun' & _ & _ & Ht).
  exists s'. split.
  - rewrite (perform_all_app _ _ _ _ Hrun). simpl. by step_with Hrun'.
  - rewrite Ht, Hc1. done.
Qed.

(** ** Setup *)

Lemma length_resize (n : nat) (v : list double) : length (resize n v) = n.
Proof.
  unfold resize. rewrite length_app, length_take, length_replicate. lia.
Qed.

Lemma fill_dense_loop (count : nat) : forall (lo : nat) c w,
  (lo + count <= length (dense c))%nat ->
  exists d w',
    for_from lo count fill_dense_body {| this := c; world := w |} =
      Ok tt {| this := set_dense d c; world := w' |} /\
    length d = length (dense c) /\ same_streams w w'.
Proof.
  induction count as [|count IH]; intros lo c w Hlen.
  - exists (dense c), w. by rewrite set_dense_same.
  - assert (Hstep : fill_dense_body lo {| this := c; world := w |} =
      Ok tt {| this := set_dense
                 (<[lo := double_of_Z (rand_value (rand_calls w))]> (dense c)) c;
               world := tick_rand w |}).
    { unfold fill_dense_body, rand, dense_store, mbind, M_bind, get. simpl.
      rewrite decide_True by lia. done. }
    rewrite (for_from_step _ _ _ _ _ Hstep).
    destruct (IH (S lo) (set_dense
                (<[lo := double_of_Z (rand_value (rand_calls w))]> (dense c)) c)
                (tick_rand w)) as (d & w' & Hrun & Hd & Hw).
    { simpl. rewrite length_insert. lia. }
    exists d, w'. simpl in *. rewrite length_insert in Hd. done.
Qed.

Lemma fill_sparse_loop (count : nat) : forall (lo : nat) c w,
  (lo + count <= length (sparse c))%nat ->
  exists sp w',
    for_from lo count fill_sparse_body {| this := c; world := w |} =
      Ok tt {| this := set_sparse sp c; world := w' |} /\
    length sp = length (sparse c) /\ same_streams w w'.
Proof.
  induction count as [|count IH]; intros lo c w Hlen.
  - exists (sparse c), w. by rewrite set_sparse_same.
  - assert (Hstep : fill_sparse_body lo {| this := c; world := w |} =
      Ok tt {| this := set_sparse
                 (<[lo := double_of_Z (rand_value (rand_calls w))]> (sparse c)) c;
               world := tick_rand w |}).
    { unfold fill_sparse_body, rand, sparse_store, mbind, M_bind, get. simpl.
      rewrite Nat2Z.id. rewrite decide_True by lia. done. }
    rewrite (for_from_step _ _ _ _ _ Hstep).
    destruct (IH (S lo) (set_sparse
                (<[lo := double_of_Z (rand_value (rand_calls w))]> (sparse c)) c)
                (tick_rand w)) as (sp & w' & Hrun & Hs & Hw).
    { simpl. rewrite length_insert. lia. }
    exists sp, w'. simpl in *. rewrite length_insert in Hs. done.
Qed.

(** [ConfigurationBase::setup] on a non-empty pattern: it completes, with
    a dense buffer as long as the pattern and a sparse buffer of
    [max_pattern_val + 1] elements, the sum taken in [size_t]. *)
Lemma ConfigurationBase_setup_run c w :
  pattern c <> [] ->
  exists d sp w',
    ConfigurationBase_setup {| this := c; world := w |} =
      Ok tt {| this := set_sparse sp (set_dense d c); world := w' |} /\
    length d = length (pattern c) /\
    length sp = Z.to_nat (wrap64 (max_pattern_val (pattern c) + 1)) /\
    cerr w' = cerr w /\ clock_reads w' = clock_reads w.
Proof.
  intros Hne. unfold ConfigurationBase_setup.
  step_with pattern_size_run. simpl this.
  rewrite decide_False by (by destruct (pattern c)).
  erewrite run_bind_Ok by reflexivity.
  erewrite run_bind_Ok by reflexivity. simpl this.
  set (c1 := set_dense (resize (length (pattern c)) (dense c)) c).
  destruct (fill_dense_loop (length (pattern c)) 0 c1 w)
    as (d & w1 & Hrun1 & Hd & Hw1).
  { simpl. by rewrite length_resize. }
  step_with Hrun1.
  erewrite run_bind_Ok by reflexivity. cbv zeta. simpl this. simpl pattern.
  erewrite run_bind_Ok by reflexivity. simpl this.
  set (size := Z.to_nat (wrap64 (max_pattern_val (pattern c) + 1))).
  set (c2 := set_sparse (resize size (sparse (set_dense d c1))) (set_dense d c1)).
  destruct (fill_sparse_loop size 0 c2 w1) as (sp & w2 & Hrun2 & Hs & Hw2).
  { simpl. by rewrite length_resize. }
  step_with Hrun2.
  erewrite run_bind_Ok by reflexivity.
  simpl in Hd, Hs. rewrite length_resize in Hd, Hs.
  destruct Hw1 as (Ho1 & He1 & Hc1). destruct Hw2 as (Ho2 & He2 & Hc2).
  unfold when. case_bool_decide.
  - eexists d, sp, _. split; [reflexivity|]. simpl.
    repeat split; [done|done|congruence|congruence].
  - exists d, sp, w2. split; [reflexivity|].
    repeat split; [done|done|congruence|congruence].
Qed.

Lemma Configuration_Serial_run (k : string) (p : list Z) (n v : Z) (w : World) :
  p <> [] ->
  exists d sp w',
    Configuration_Serial k p n v w =
      Ok tt {| this := set_sparse sp (set_dense d (ConfigurationBase_new k p n v));
               world := w' |} /\
    length d = length p /\
    length sp = Z.to_nat (wrap64 (max_pattern_val p + 1)) /\
    cerr w' = cerr w /\ clock_reads w' = clock_reads w.
Proof.
  intros Hne. unfold Configuration_Serial, setup.
  erewrite run_bind_Ok by reflexivity. simpl this. simpl verbosity.
  unfold when. case_bool_decide.
  - erewrite run_bind_Ok by reflexivity.
    destruct (ConfigurationBase_setup_run (ConfigurationBase_new k p n v)
                (write_cout [Str "Spatter Serial Setup"; Endl] w) Hne)
      as (d & sp & w' & Hrun & Hd & Hs & He & Hc).
    by exists d, sp, w'.
  - erewrite run_bind_Ok by reflexivity.
    apply (ConfigurationBase_setup_run (ConfigurationBase_new k p n v)). done.
Qed.

(** The loop of [setup] that looks for the largest pattern element. *)
Lemma max_pattern_val_from (p : list Z) : forall m0 : Z,
  let r := fold_left (fun m x => if decide (x > m) then x else m) p m0 in
  m0 <= r /\ (forall x, x ∈ p -> x <= r) /\ (r = m0 \/ r ∈ p).
Proof.
  induction p as [|a p IH]; intros m0; simpl.
  - split; [lia|]. split; [|by left]. intros x Hx. by apply elem_of_nil in Hx.
  - destruct (IH (if decide (a > m0) then a else m0)) as (Hle & Hall & Hin).
    split; [case_decide; lia|]. split.
    + intros x [->|Hx]%elem_of_cons; [case_decide; lia|by apply Hall].
    + destruct Hin as [Hin|Hin]; [|right; by apply elem_of_cons; right].
      case_decide; [right; rewrite Hin; apply elem_of_cons; by left|by left].
Qed.

Lemma max_pattern_val_is_max (p : list Z) :
  p <> [] -> Forall (fun x => 0 <= x) p -> is_max (max_pattern_val p) p.
Proof.
  intros Hne Hpos. destruct (max_pattern_val_from p 0) as (Hle & Hall & Hin).
  split; [|exact Hall].
  destruct Hin as [Hin|Hin]; [|exact Hin].
  destruct p as [|a p]; [done|].
  assert (a = 0) as ->.
  { apply Forall_cons in Hpos as [Ha _].
    specialize (Hall a ltac:(apply elem_of_cons; by left)).
    fold (max_pattern_val (a :: p)) in Hin. unfold max_pattern_val in Hin.
    lia. }
  unfold max_pattern_val. rewrite Hin. apply elem_of_cons. by left.
Qed.

Lemma buffer_sizing_in_bounds c :
  Forall (fun x => 0 <= x) (pattern c) -> buffer_sizing c -> in_bounds c.
Proof.
  intros Hpos (Hd & m & [_ Hmax] & Hs). split; [done|].
  apply Forall_forall. intros x Hx.
  rewrite Forall_forall in Hpos. specialize (Hpos x Hx). specialize (Hmax x Hx).
  lia.
Qed.

(** ** Calls after setup *)

Lemma report_run c w :
  report {| this := c; world := w |} =
  Ok tt {| this := c; world := write_cout (report_output c) w |}.
Proof.
  unfold report, ConfigurationBase_report, print, modify_world, mbind, M_bind,
    get, write_cout, report_output.
  simpl. by rewrite <- !app_assoc.
Qed.

Lemma run_run (timed : bool) c w :
  in_bounds c ->
  exists (r : Z) s',
    run timed {| this := c; world := w |} = Ok r s' /\
    pattern (this s') = pattern c /\
    length (dense (this s')) = length (dense c) /\
    length (sparse (this s')) = length (sparse c).
Proof.
  intros Hb. unfold run. erewrite run_bind_Ok by reflexivity. simpl this.
  case_decide; [|case_decide].
  - destruct (gather_run timed c w Hb) as (d & Hrun & Hlen & _).
    destruct (kernel_result_frame timed (set_dense d c) w)
      as (_ & Hp & Hs & Hd & _).
    exists 0, (kernel_result timed (set_dense d c) w).
    split; [by step_with Hrun|]. by rewrite Hp, Hs, Hd.
  - destruct (scatter_run timed c w Hb) as (sp & Hrun & Hlen & _).
    destruct (kernel_result_frame timed (set_sparse sp c) w)
      as (_ & Hp & Hs & Hd & _).
    exists 0, (kernel_result timed (set_sparse sp c) w).
    split; [by step_with Hrun|]. by rewrite Hp, Hs, Hd.
  - by eexists _, _.
Qed.

Lemma perform_keeps_buffers (k : call) (s : State) :
  in_bounds (this s) ->
  exists s',
    perform k s = Ok tt s' /\
    pattern (this s') = pattern (this s) /\
    length (dense (this s')) = length (dense (this s)) /\
    length (sparse (this s')) = length (sparse (this s)).
Proof.
  destruct s as [c w]. simpl. intros Hb. destruct k as [t|t|t|]; simpl perform.
  - destruct (gather_run t c w Hb) as (d & Hrun & Hlen & _).
    destruct (kernel_result_frame t (set_dense d c) w)
      as (_ & Hp & Hs & Hd & _).
    eexists. split; [exact Hrun|]. by rewrite Hp, Hs, Hd.
  - destruct (scatter_run t c w Hb) as (sp & Hrun & Hlen & _).
    destruct (kernel_result_frame t (set_sparse sp c) w)
      as (_ & Hp & Hs & Hd & _).
    eexists. split; [exact Hrun|]. by rewrite Hp, Hs, Hd.
  - destruct (run_run t c w Hb) as (r & s' & Hrun & Hrest).
    exists s'. split; [by step_with Hrun|done].
  - eexists. split; [apply report_run|done].
Qed.

Lemma in_bounds_transfer c c' :
  in_bounds c ->
  pattern c' = pattern c ->
  length (dense c') = length (dense c) ->
  length (sparse c') = length (sparse c) ->
  in_bounds c'.
Proof. intros [Hd HF] Hp Hde Hs. split; rewrite ?Hp, ?Hde, ?Hs; done. Qed.

Lemma perform_all_keeps_buffers (ks : list call) : forall s : State,
  in_bounds (this s) ->
  exists s',
    perform_all ks s = Ok tt s' /\
    pattern (this s') = pattern (this s) /\
    length (dense (this s')) = length (dense (this s)) /\
    length (sparse (this s')) = length (sparse (this s)).
Proof.
  induction ks as [|k ks IH]; intros s Hb; [by exists s|].
  destruct (perform_keeps_buffers k s Hb) as (s1 & Hrun & Hp & Hd & Hs).
  destruct (IH s1 (in_bounds_transfer _ _ Hb Hp Hd Hs))
    as (s' & Hrun' & Hp' & Hd' & Hs').
  exists s'. split; [simpl; by step_with Hrun|]. split; [congruence|lia].
Qed.

(** What the constructor builds from a non-empty pattern of [size_t]
    values below [SIZE_MAX]. *)
Lemma Configuration_Serial_sizing
  (k : string) (p : list Z) (n v : Z) (w : World) :
  p <> [] ->
  Forall (fun x => 0 <= x < SIZE_MAX) p ->
  exists s,
    Configuration_Serial k p n v w = Ok tt s /\
    pattern (this s) = p /\
    buffer_sizing (this s) /\
    in_bounds (this s).
Proof.
  intros Hne Hrange.
  destruct (Configuration_Serial_run k p n v w Hne)
    as (d & sp & w' & Hrun & Hd & Hs & _).
  assert (Hpos : Forall (fun x => 0 <= x) p).
  { eapply Forall_impl; [exact Hrange|]. simpl. lia. }
  pose proof (max_pattern_val_is_max p Hne Hpos) as Hmax.
  assert (Hm : 0 <= max_pattern_val p < SIZE_MAX).
  { destruct Hmax as [Hin _]. rewrite Forall_forall in Hrange.
    exact (Hrange _ Hin). }
  assert (Hsize : buffer_sizing
            (set_sparse sp (set_dense d (ConfigurationBase_new k p n v)))).
  { split; [done|]. exists (max_pattern_val p). split; [done|]. simpl.
    rewrite Hs. unfold wrap64. unfold SIZE_MAX in Hm.
    rewrite Z.mod_small by lia. lia. }
  eexists. split; [exact Hrun|]. split; [done|]. split; [done|].
  by apply buffer_sizing_in_bounds.
Qed.

(** C4 (amended). For a non-empty pattern of [size_t] values below
    [SIZE_MAX], the constructor's [setup] completes and leaves the dense
    buffer as long as the pattern and the sparse buffer one longer than
    the largest pattern element; every sequence of [gather], [scatter],
    [run] and [report] calls after it completes and keeps the pattern and
    both lengths. *)
Theorem buffer_sizing_after_setup
  (k : string) (p : list Z) (n v : Z) (w : World) :
  p <> [] ->
  Forall (fun x => 0 <= x < SIZE_MAX) p ->
  exists s,
    Configuration_Serial k p n v w = Ok tt s /\
    pattern (this s) = p /\
    buffer_sizing (this s) /\
    forall ks : list call, exists s',
      perform_all ks s = Ok tt s' /\
      pattern (this s') = p /\
      buffer_sizing (this s').
Proof.
  intros Hne Hrange.
  destruct (Configuration_Serial_sizing k p n v w Hne Hrange)
    as (s & Hrun & Hp & Hsize & Hb).
  exists s. split; [done|]. split; [done|]. split; [done|].
  intros ks.
  destruct (perform_all_keeps_buffers ks s Hb) as (s' & Hrun' & Hp' & Hd' & Hs').
  exists s'. split; [done|]. split; [congruence|].
  destruct Hsize as (Hsd & m & Hmm & Hsm).
  split; [rewrite Hp'; lia|].
  exists m. rewrite Hp'. split; [done|lia].
Qed.

(** C6. The constructor's [setup] on a pattern of length zero writes the
    configuration error on the error stream and exits with a non-zero
    status (1), before any buffer is resized or filled: dense and sparse
    are empty and [rand] was not called.  On a pattern of length at least
    1 it does not take this branch: it completes and the error stream is
    as before. *)
Theorem setup_rejects_empty_pattern (k : string) (n v : Z) (w : World) :
  (exists (status : Z) (s : State),
     Configuration_Serial k [] n v w = Exit status s /\
     status <> 0 /\
     dense (this s) = [] /\ sparse (this s) = [] /\
     rand_calls (world s) = rand_calls w /\
     cerr (world s) =
       (cerr w ++ [Str "Pattern needs to have length of at least 1"; Endl])%list) /\
  (forall (x : Z) (p : list Z),
   exists s : State,
     (1 <= length (x :: p))%nat /\
     Configuration_Serial k (x :: p) n v w = Ok tt s /\
     cerr (world s) = cerr w).
Proof.
  split.
  - exists 1.
    unfold Configuration_Serial, setup, ConfigurationBase_setup.
    unfold mbind, M_bind, when. simpl.
    case_bool_decide; simpl; by eexists.
  - intros x p.
    destruct (Configuration_Serial_run k (x :: p) n v w)
      as (d & sp & w' & Hrun & H); [done|].
    eexists. split; [simpl; lia|]. split; [exact Hrun|]. simpl. tauto.
Qed.

(** ** Kernel names *)

Lemma N_of_tolower (a : ascii) :
  N_of_ascii (tolower a) =
  if is_upper a then (N_of_ascii a + 32)%N else N_of_ascii a.
Proof.
  unfold tolower. destruct (is_upper a) eqn:Ha; [|done].
  apply N_ascii_embedding. unfold is_upper in Ha.
  apply andb_true_iff in Ha as [_ Ha%N.leb_le]. lia.
Qed.

Lemma N_of_ascii_inj (a b : ascii) : N_of_ascii a = N_of_ascii b -> a = b.
Proof.
  intros H. rewrite <- (ascii_N_embedding a), <- (ascii_N_embedding b).
  by rewrite H.
Qed.

Lemma same_letter_tolower (a b : ascii) :
  same_letter a b = true <-> tolower a = tolower b.
Proof.
  split.
  - intros H. apply N_of_ascii_inj. rewrite !N_of_tolower.
    unfold same_letter, is_upper in *.
    destruct (N.leb_spec 65 (N_of_ascii a)), (N.leb_spec (N_of_ascii a) 90),
      (N.leb_spec 65 (N_of_ascii b)), (N.leb_spec (N_of_ascii b) 90),
      (N.eqb_spec (N_of_ascii a) (N_of_ascii b)),
      (N.eqb_spec (N_of_ascii b) (N_of_ascii a + 32)),
      (N.eqb_spec (N_of_ascii a) (N_of_ascii b + 32));
      simpl in *; try discriminate; lia.
  - intros H. apply (f_equal N_of_ascii) in H. rewrite !N_of_tolower in H.
    unfold same_letter, is_upper in *.
    destruct (N.leb_spec 65 (N_of_ascii a)), (N.leb_spec (N_of_ascii a) 90),
      (N.leb_spec 65 (N_of_ascii b)), (N.leb_spec (N_of_ascii b) 90),
      (N.eqb_spec (N_of_ascii a) (N_of_ascii b)),
      (N.eqb_spec (N_of_ascii b) (N_of_ascii a + 32)),
      (N.eqb_spec (N_of_ascii a) (N_of_ascii b + 32));
      simpl in *; try reflexivity; lia.
Qed.

Lemma iequals_transform (s : string) : forall t : string,
  iequals s t = true <-> transform tolower s = transform tolower t.
Proof.
  induction s as [|a s IH]; intros [|b t]; simpl; try done.
  rewrite andb_true_iff, same_letter_tolower, IH. split.
  - by intros [-> ->].
  - intros H. by inversion H.
Qed.



(** ** The report *)

(** A positive integer converts to a positive finite [double] or to
    [+infinity]: the shifts of the rounding never empty the mantissa. *)

Lemma shr_1_m (mrs : shr_record) :
  0 <= shr_m mrs -> shr_m (shr_1 mrs) = shr_m mrs / 2.
Proof.
  destruct mrs as [m r s]. cbn [shr_m]. intros Hm.
  destruct m as [|[p|p|]|p]; cbn [shr_1 shr_m]; try done.
  - rewrite Pos2Z.inj_xI. apply (Z.div_unique _ _ _ 1); lia.
  - rewrite Pos2Z.inj_xO. apply (Z.div_unique _ _ _ 0); lia.
Qed.

Lemma iter_pos_shr_m (p : positive) : forall mrs : shr_record,
  0 <= shr_m mrs ->
  shr_m (SpecFloat.iter_pos shr_1 p mrs) = shr_m mrs / 2 ^ Z.pos p.
Proof.
  induction p as [p IH|p IH|]; intros mrs Hm; simpl SpecFloat.iter_pos.
  - assert (H1 : 0 <= shr_m (shr_1 mrs)).
    { rewrite shr_1_m by done. apply Z.div_pos; lia. }
    assert (H2 : 0 <= shr_m (SpecFloat.iter_pos shr_1 p (shr_1 mrs))).
    { rewrite IH by done. apply Z.div_pos; lia. }
    rewrite IH, IH, shr_1_m by done.
    rewrite !Z.div_div by lia. f_equal.
    replace (Z.pos p~1) with (Z.pos p + Z.pos p + 1) by lia.
    rewrite !Z.pow_add_r by lia. lia.
  - assert (H2 : 0 <= shr_m (SpecFloat.iter_pos shr_1 p mrs)).
    { rewrite IH by done. apply Z.div_pos; lia. }
    rewrite IH, IH by done.
    rewrite !Z.div_div by lia. f_equal.
    replace (Z.pos p~0) with (Z.pos p + Z.pos p) by lia.
    rewrite !Z.pow_add_r by lia. lia.
  - rewrite shr_1_m by done. done.
Qed.

Lemma digits2_pos_bounds (p : positive) :
  2 ^ (Z.pos (digits2_pos p) - 1) <= Z.pos p < 2 ^ Z.pos (digits2_pos p).
Proof.
  induction p as [p IH|p IH|]; cbn [digits2_pos].
  - rewrite Pos2Z.inj_succ.
    replace (Z.succ (Z.pos (digits2_pos p)) - 1)
      with (Z.succ (Z.pos (digits2_pos p) - 1)) by lia.
    rewrite !Z.pow_succ_r by lia. lia.
  - rewrite Pos2Z.inj_succ.
    replace (Z.succ (Z.pos (digits2_pos p)) - 1)
      with (Z.succ (Z.pos (digits2_pos p) - 1)) by lia.
    rewrite !Z.pow_succ_r by lia. lia.
  - done.
Qed.

Lemma shr_record_of_loc_m (m : Z) (l : location) :
  shr_m (shr_record_of_loc m l) = m.
Proof. by destruct l as [|[]]. Qed.

Lemma shr_fexp_pos (m e : Z) (l : location) :
  0 < m ->
  emin prec emax + prec - 1 <= e ->
  0 < shr_m (shr_fexp prec emax m e l).1 /\ e <= (shr_fexp prec emax m e l).2.
Proof.
  intros Hm He. destruct m as [|p|p]; try lia.
  pose proof (digits2_pos_bounds p) as [Hlo Hhi].
  unfold shr_fexp, shr, fexp, Zdigits2.
  set (d := Z.pos (digits2_pos p)) in *.
  assert (Hd : 0 < d) by (unfold d; lia).
  rewrite Z.max_l by (unfold prec in *; lia).
  destruct (d + e - prec - e) as [|q|q] eqn:Hn; cbn [fst snd];
    rewrite ?shr_record_of_loc_m; try lia.
  rewrite iter_pos_shr_m by (rewrite shr_record_of_loc_m; lia).
  rewrite shr_record_of_loc_m. split; [|lia].
  apply Z.div_str_pos. split; [lia|].
  apply Z.le_trans with (2 ^ (d - 1)); [|done].
  apply Z.pow_le_mono_r; unfold prec in *; lia.
Qed.

Lemma round_nearest_even_ge (m : Z) (l : location) :
  m <= round_nearest_even m l.
Proof. destruct l as [|[]]; simpl; try lia. destruct (Z.even m); lia. Qed.

Lemma binary_round_aux_pos (sx : bool) (m e : Z) (l : location) :
  0 < m ->
  emin prec emax + prec - 1 <= e ->
  (exists m' e', binary_round_aux prec emax sx m e l = S754_finite sx m' e') \/
  binary_round_aux prec emax sx m e l = S754_infinity sx.
Proof.
  intros Hm He. unfold binary_round_aux.
  destruct (shr_fexp_pos m e l Hm He) as [Hm1 He1].
  destruct (shr_fexp prec emax m e l) as [mrs1 e1]. cbn [fst snd] in *.
  pose proof (round_nearest_even_ge (shr_m mrs1) (loc_of_shr_record mrs1)) as Hr.
  destruct (shr_fexp_pos (round_nearest_even (shr_m mrs1) (loc_of_shr_record mrs1))
              e1 loc_Exact ltac:(lia) ltac:(lia)) as [Hm2 He2].
  destruct (shr_fexp prec emax _ e1 loc_Exact) as [mrs2 e2]. cbn [fst snd] in *.
  destruct (shr_m mrs2) as [|q|q]; try lia.
  destruct (e2 <=? emax - prec)%Z; [left; by eexists _, _|by right].
Qed.

Lemma double_of_Z_pos (z : Z) :
  0 < z ->
  (exists m e, double_of_Z z = S754_finite false m e) \/
  double_of_Z z = S754_infinity false.
Proof.
  intros Hz. destruct z as [|p|p]; try lia.
  unfold double_of_Z, binary_normalize, binary_round.
  pose proof (digits2_pos_bounds p) as [Hlo Hhi].
  destruct (shl_align p 0 (fexp prec emax (Z.pos (digits2_pos p) + 0)))
    as [mz ez] eqn:Hal.
  apply binary_round_aux_pos; [lia|].
  unfold shl_align, fexp in Hal.
  destruct (Z.max (Z.pos (digits2_pos p) + 0 - prec) (emin prec emax) - 0)
    eqn:Hn; inversion Hal; subst; unfold prec, emax, emin in *; lia.
Qed.

Lemma ddiv_by_zero (x : double) (sign : bool) :
  (exists m e, x = S754_finite false m e) \/ x = S754_infinity false ->
  ddiv (ddiv x (S754_zero sign)) million = S754_infinity sign.
Proof. intros [(m & e & ->)| ->]; by destruct sign. Qed.

(** C7 (amended). With [time_seconds] equal to zero, [report] completes
    and the bandwidth figure it writes is the plain double-precision
    quotient, with no guard: NaN when the total of bytes moved is zero,
    and otherwise the infinity that has the sign of [time_seconds]. *)
Theorem report_zero_time_unguarded (s : State) (sign : bool) :
  time_seconds (this s) = S754_zero sign ->
  exists s',
    report s = Ok tt s' /\
    cout (world s') = (cout (world s) ++ report_output (this s))%list /\
    Dbl (average_bandwidth (this s)) ∈ report_output (this s) /\
    (total_bytes_moved (this s) = 0 ->
     average_bandwidth (this s) = S754_nan) /\
    (total_bytes_moved (this s) <> 0 ->
     average_bandwidth (this s) = S754_infinity sign).
Proof.
  destruct s as [c w]. simpl. intros HT.
  eexists. split; [apply report_run|]. split; [done|]. split.
  - unfold report_output. rewrite !elem_of_cons. tauto.
  - unfold average_bandwidth. rewrite HT. split; [by intros ->|].
    intros Hne. apply ddiv_by_zero, double_of_Z_pos.
    pose proof (Z.mod_pos_bound
                  (wrap64 (nruns c * Z.of_nat (length (pattern c))) *
                   sizeof_size_t) (2 ^ 64) ltac:(lia)) as Hb.
    unfold total_bytes_moved, wrap64 in *. lia.
Qed.

Lemma total_bytes_moved_mod c :
  total_bytes_moved c =
  (nruns c * Z.of_nat (length (pattern c)) * 8) mod 2 ^ 64.
Proof.
  unfold total_bytes_moved, wrap64, sizeof_size_t.
  by rewrite Z.mul_mod_idemp_l.
Qed.

(** C8 (amended). [report] completes, changes nothing in the object, and
    writes: as total of bytes moved, [N * P * 8] reduced modulo [2^64]
    (so [N * P * 8] itself when that is below [2^64]); as bytes per
    run, [P * 8] reduced modulo [2^64]; as bandwidth, the double-precision
    quotient of the total by [T] and then by 1000000.  With [N = 10],
    [P = 4] and [T = 1.0] these are 320, 32 and the double nearest to
    0.00032. *)
Theorem report_figures (s : State) :
  let c := this s in
  let N := nruns c in
  let P := Z.of_nat (length (pattern c)) in
  let T := time_seconds c in
  (exists s',
     report s = Ok tt s' /\ this s' = c /\
     cout (world s') = (cout (world s) ++ report_output c)%list /\
     UInt (total_bytes_moved c) ∈ report_output c /\
     UInt (bytes_moved_per_run c) ∈ report_output c /\
     Dbl (average_bandwidth c) ∈ report_output c) /\
  total_bytes_moved c = (N * P * 8) mod 2 ^ 64 /\
  bytes_moved_per_run c = (P * 8) mod 2 ^ 64 /\
  average_bandwidth c =
    ddiv (ddiv (double_of_Z ((N * P * 8) mod 2 ^ 64)) T) million /\
  (0 <= N * P * 8 < 2 ^ 64 -> total_bytes_moved c = N * P * 8) /\
  (P * 8 < 2 ^ 64 -> bytes_moved_per_run c = P * 8) /\
  (N = 10 -> P = 4 -> T = double_of_Z 1 ->
   total_bytes_moved c = 320 /\ bytes_moved_per_run c = 32 /\
   rounds_ratio 32 100000 (average_bandwidth c)).
Proof.
  destruct s as [c w]. simpl.
  split; [|split; [|split; [|split; [|split; [|split]]]]].
  - eexists. split; [apply report_run|]. split; [done|]. split; [done|].
    unfold report_output. rewrite !elem_of_cons. tauto.
  - apply total_bytes_moved_mod.
  - done.
  - unfold average_bandwidth. by rewrite total_bytes_moved_mod.
  - intros H. rewrite total_bytes_moved_mod. by apply Z.mod_small.
  - intros H. unfold bytes_moved_per_run, wrap64, sizeof_size_t.
    apply Z.mod_small. lia.
  - intros HN HP HT. unfold average_bandwidth.
    rewrite total_bytes_moved_mod, HT.
    unfold bytes_moved_per_run, sizeof_size_t. rewrite HN, HP.
    split; [done|]. split; [done|]. vm_compute. repeat split; discriminate.
Qed.

(** * Further properties *)

(** ** The buffers [setup] builds *)

Lemma fill_dense_loop_values (count : nat) : forall (lo : nat) c w,
  (lo + count <= length (dense c))%nat ->
  exists d w',
    for_from lo count fill_dense_body {| this := c; world := w |} =
      Ok tt {| this := set_dense d c; world := w' |} /\
    length d = length (dense c) /\ same_streams w w' /\
    rand_calls w' = (rand_calls w + count)%nat /\
    (forall j, (j < lo \/ lo + count <= j)%nat -> d !! j = dense c !! j) /\
    (forall j, (lo <= j < lo + count)%nat ->
       d !! j = Some (rand_double (rand_calls w + (j - lo)))).
Proof.
  induction count as [|count IH]; intros lo c w Hlen.
  - exists (dense c), w. rewrite set_dense_same.
    split; [done|]. split; [done|]. split; [done|]. split; [lia|].
    split; [done|]. intros j Hj. lia.
  - set (v := rand_double (rand_calls w)).
    assert (Hstep : fill_dense_body lo {| this := c; world := w |} =
      Ok tt {| this := set_dense (<[lo := v]> (dense c)) c;
               world := tick_rand w |}).
    { unfold fill_dense_body, rand, dense_store, mbind, M_bind, get. simpl.
      rewrite decide_True by lia. done. }
    rewrite (for_from_step _ _ _ _ _ Hstep).
    destruct (IH (S lo) (set_dense (<[lo := v]> (dense c)) c) (tick_rand w))
      as (d & w' & Hrun & Hd & Hw & Hr & Hout & Hin).
    { simpl. rewrite length_insert. lia. }
    exists d, w'. simpl in *. rewrite length_insert in Hd.
    split; [done|]. split; [done|]. split; [done|]. split; [lia|]. split.
    + intros j Hj. rewrite Hout by lia. apply list_lookup_insert_ne. lia.
    + intros j Hj. destruct (decide (j = lo)) as [->|Hne].
      * rewrite Hout by lia. rewrite list_lookup_insert_eq by lia.
        unfold v. do 2 f_equal. lia.
      * rewrite Hin by lia. do 2 f_equal. lia.
Qed.

Lemma fill_sparse_loop_values (count : nat) : forall (lo : nat) c w,
  (lo + count <= length (sparse c))%nat ->
  exists sp w',
    for_from lo count fill_sparse_body {| this := c; world := w |} =
      Ok tt {| this := set_sparse sp c; world := w' |} /\
    length sp = length (sparse c) /\ same_streams w w' /\
    rand_calls w' = (rand_calls w + count)%nat /\
    (forall j, (j < lo \/ lo + count <= j)%nat -> sp !! j = sparse c !! j) /\
    (forall j, (lo <= j < lo + count)%nat ->
       sp !! j = Some (rand_double (rand_calls w + (j - lo)))).
Proof.
  induction count as [|count IH]; intros lo c w Hlen.
  - exists (sparse c), w. rewrite set_sparse_same.
    split; [done|]. split; [done|]. split; [done|]. split; [lia|].
    split; [done|]. intros j Hj. lia.
  - set (v := rand_double (rand_calls w)).
    assert (Hstep : fill_sparse_body lo {| this := c; world := w |} =
      Ok tt {| this := set_sparse (<[lo := v]> (sparse c)) c;
               world := tick_rand w |}).
    { unfold fill_sparse_body, rand, sparse_store, mbind, M_bind, get. simpl.
      rewrite Nat2Z.id. rewrite decide_True by lia. done. }
    rewrite (for_from_step _ _ _ _ _ Hstep).
    destruct (IH (S lo) (set_sparse (<[lo := v]> (sparse c)) c) (tick_rand w))
      as (sp & w' & Hrun & Hs & Hw & Hr & Hout & Hin).
    { simpl. rewrite length_insert. lia. }
    exists sp, w'. simpl in *. rewrite length_insert in Hs.
    split; [done|]. split; [done|]. split; [done|]. split; [lia|]. split.
    + intros j Hj. rewrite Hout by lia. apply list_lookup_insert_ne. lia.
    + intros j Hj. destruct (decide (j = lo)) as [->|Hne].
      * rewrite Hout by lia. rewrite list_lookup_insert_eq by lia.
        unfold v. do 2 f_equal. lia.
      * rewrite Hin by lia. do 2 f_equal. lia.
Qed.

(** [ConfigurationBase::setup] on a non-empty pattern, with the contents
    of the buffers. *)
Lemma ConfigurationBase_setup_values c w :
  pattern c <> [] ->
  exists d sp w',
    ConfigurationBase_setup {| this := c; world := w |} =
      Ok tt {| this := set_sparse sp (set_dense d c); world := w' |} /\
    length d = length (pattern c) /\
    length sp = sparse_size (pattern c) /\
    (forall i, (i < length (pattern c))%nat ->
       d !! i = Some (rand_double (rand_calls w + i))) /\
    (forall j, (j < sparse_size (pattern c))%nat ->
       sp !! j = Some (rand_double (rand_calls w + length (pattern c) + j))) /\
    rand_calls w' =
      (rand_calls w + length (pattern c) + sparse_size (pattern c))%nat /\
    cerr w' = cerr w /\ clock_reads w' = clock_reads w.
Proof.
  intros Hne. unfold ConfigurationBase_setup.
  step_with pattern_size_run. simpl this.
  rewrite decide_False by (by destruct (pattern c)).
  erewrite run_bind_Ok by reflexivity.
  erewrite run_bind_Ok by reflexivity. simpl this.
  set (c1 := set_dense (resize (length (pattern c)) (dense c)) c).
  destruct (fill_dense_loop_values (length (pattern c)) 0 c1 w)
    as (d & w1 & Hrun1 & Hd & Hw1 & Hr1 & _ & Hdv).
  { simpl. by rewrite length_resize. }
  step_with Hrun1.
  erewrite run_bind_Ok by reflexivity. cbv zeta. simpl this. simpl pattern.
  erewrite run_bind_Ok by reflexivity. simpl this.
  fold (sparse_size (pattern c)).
  set (c2 := set_sparse (resize (sparse_size (pattern c))
                           (sparse (set_dense d c1))) (set_dense d c1)).
  destruct (fill_sparse_loop_values (sparse_size (pattern c)) 0 c2 w1)
    as (sp & w2 & Hrun2 & Hs & Hw2 & Hr2 & _ & Hsv).
  { simpl. by rewrite length_resize. }
  step_with Hrun2.
  erewrite run_bind_Ok by reflexivity.
  simpl in Hd, Hs. rewrite length_resize in Hd, Hs.
  destruct Hw1 as (Ho1 & He1 & Hc1). destruct Hw2 as (Ho2 & He2 & Hc2).
  assert (Hdv' : forall i, (i < length (pattern c))%nat ->
            d !! i = Some (rand_double (rand_calls w + i))).
  { intros i Hi. rewrite Hdv by lia. do 2 f_equal. lia. }
  assert (Hsv' : forall j, (j < sparse_size (pattern c))%nat ->
            sp !! j = Some (rand_double (rand_calls w + length (pattern c) + j))).
  { intros j Hj. rewrite Hsv by lia. do 2 f_equal. lia. }
  unfold when. case_bool_decide.
  - eexists d, sp, _. split; [reflexivity|]. simpl.
    split; [done|]. split; [done|]. split; [done|]. split; [done|].
    split; [lia|]. split; congruence.
  - exists d, sp, w2. split; [reflexivity|].
    split; [done|]. split; [done|]. split; [done|]. split; [done|].
    split; [lia|]. split; congruence.
Qed.

(** X1. The constructor, on a non-empty pattern, stores the lower-cased
    kernel name and its other arguments, leaves [time_seconds] at zero,
    and fills dense with the values of the next [len(pattern)] calls of
    [rand], in order, and sparse with the values of the calls after
    these; it calls [rand] that many times and never reads the clock. *)
Theorem constructor_fills_buffers_from_rand
  (k : string) (p : list Z) (n v : Z) (w : World) :
  p <> [] ->
  exists s,
    Configuration_Serial k p n v w = Ok tt s /\
    kernel (this s) = transform tolower k /\
    pattern (this s) = p /\ nruns (this s) = n /\ verbosity (this s) = v /\
    time_seconds (this s) = dzero /\
    length (dense (this s)) = length p /\
    length (sparse (this s)) = sparse_size p /\
    (forall i, (i < length p)%nat ->
       dense (this s) !! i = Some (rand_double (rand_calls w + i))) /\
    (forall j, (j < sparse_size p)%nat ->
       sparse (this s) !! j =
         Some (rand_double (rand_calls w + length p + j))) /\
    rand_calls (world s) = (rand_calls w + length p + sparse_size p)%nat /\
    clock_reads (world s) = clock_reads w.
Proof.
  intros Hne. unfold Configuration_Serial, setup.
  erewrite run_bind_Ok by reflexivity. simpl this. simpl verbosity.
  set (c := ConfigurationBase_new k p n v).
  assert (Hgoal : forall w0, rand_calls w0 = rand_calls w ->
            clock_reads w0 = clock_reads w ->
            exists s,
              ConfigurationBase_setup {| this := c; world := w0 |} = Ok tt s /\
              kernel (this s) = transform tolower k /\
              pattern (this s) = p /\ nruns (this s) = n /\
              verbosity (this s) = v /\ time_seconds (this s) = dzero /\
              length (dense (this s)) = length p /\
              length (sparse (this s)) = sparse_size p /\
              (forall i, (i < length p)%nat ->
                 dense (this s) !! i = Some (rand_double (rand_calls w + i))) /\
              (forall j, (j < sparse_size p)%nat ->
                 sparse (this s) !! j =
                   Some (rand_double (rand_calls w + length p + j))) /\
              rand_calls (world s) =
                (rand_calls w + length p + sparse_size p)%nat /\
              clock_reads (world s) = clock_reads w).
  { intros w0 Hr Hc.
    destruct (ConfigurationBase_setup_values c w0 Hne)
      as (d & sp & w' & Hrun & Hd & Hs & Hdv & Hsv & Hr' & _ & Hc').
    eexists. split; [exact Hrun|]. simpl in *. rewrite Hr in *.
    repeat (split; [done|]). congruence. }
  unfold when. case_bool_decide.
  - erewrite run_bind_Ok by reflexivity. by apply Hgoal.
  - erewrite run_bind_Ok by reflexivity. by apply Hgoal.
Qed.

(** ** Repeated and combined kernel calls *)

Lemma last_occurrence (l : list Z) (x : Z) :
  x ∈ l ->
  exists i : nat,
    l !! i = Some x /\ forall i', (i < i')%nat -> l !! i' <> Some x.
Proof.
  induction l as [|a l IH]; intros Hx; [by apply elem_of_nil in Hx|].
  destruct (decide (x ∈ l)) as [Hin|Hout].
  - destruct (IH Hin) as (i & Hi & Hafter). exists (S i). split; [done|].
    intros [|i'] Hlt; [lia|]. simpl. apply Hafter. lia.
  - apply elem_of_cons in Hx as [->|Hx]; [|done].
    exists 0%nat. split; [done|].
    intros [|i'] Hlt; [lia|]. simpl. intros Hi'.
    apply Hout. by eapply list_elem_of_lookup_2.
Qed.

Lemma gather_fixed (timed : bool) c w :
  in_bounds c -> gathered c ->
  gather timed {| this := c; world := w |} = Ok tt (kernel_result timed c w).
Proof.
  intros Hb Hg. destruct (gather_run timed c w Hb) as (d & Hrun & Hlen & Hget).
  assert (d = dense c) as ->; [|by rewrite set_dense_same in Hrun].
  apply list_eq. intros i. destruct (pattern c !! i) as [p|] eqn:Hp.
  - by rewrite (Hget i p Hp), (Hg i p Hp).
  - destruct Hb as [Hd _]. apply lookup_ge_None in Hp.
    rewrite !(proj2 (lookup_ge_None _ _)) by lia. done.
Qed.

Lemma scatter_settled (timed : bool) c w :
  in_bounds c -> scattered c ->
  scatter timed {| this := c; world := w |} = Ok tt (kernel_result timed c w).
Proof.
  intros Hb Hs.
  destruct (scatter_run timed c w Hb) as (sp & Hrun & Hlen & Hlast & Hfree).
  assert (sp = sparse c) as ->; [|by rewrite set_sparse_same in Hrun].
  apply list_eq. intros j.
  destruct (decide (Z.of_nat j ∈ pattern c)) as [Hin|Hout]; [|by apply Hfree].
  destruct (last_occurrence _ _ Hin) as (i & Hi & Hafter).
  specialize (Hlast i _ Hi Hafter). specialize (Hs i _ Hi Hafter).
  rewrite Nat2Z.id in Hlast, Hs. congruence.
Qed.

Lemma kernel_result_this (timed : bool) c w :
  pattern (this (kernel_result timed c w)) = pattern c /\
  sparse (this (kernel_result timed c w)) = sparse c /\
  dense (this (kernel_result timed c w)) = dense c.
Proof. by destruct timed. Qed.

Lemma in_bounds_same_buffers c c' :
  in_bounds c -> pattern c' = pattern c -> sparse c' = sparse c ->
  dense c' = dense c -> in_bounds c'.
Proof. unfold in_bounds. by intros H -> -> ->. Qed.

Lemma gathered_same_buffers c c' :
  gathered c -> pattern c' = pattern c -> sparse c' = sparse c ->
  dense c' = dense c -> gathered c'.
Proof. unfold gathered. by intros H -> -> ->. Qed.

Lemma scattered_same_buffers c c' :
  scattered c -> pattern c' = pattern c -> sparse c' = sparse c ->
  dense c' = dense c -> scattered c'.
Proof. unfold scattered. by intros H -> -> ->. Qed.

Lemma gather_calls_fixed (ts : list bool) : forall s : State,
  in_bounds (this s) -> gathered (this s) ->
  exists s',
    perform_all (Gather <$> ts) s = Ok tt s' /\
    pattern (this s') = pattern (this s) /\
    sparse (this s') = sparse (this s) /\
    dense (this s') = dense (this s).
Proof.
  induction ts as [|t ts IH]; intros [c w] Hb Hg; [by eexists|].
  simpl in Hb, Hg.
  destruct (kernel_result_this t c w) as (Hp & Hs & Hd).
  destruct (IH (kernel_result t c w)) as (s' & Hrun & Hp' & Hs' & Hd').
  { by eapply in_bounds_same_buffers. }
  { by eapply gathered_same_buffers. }
  exists s'. split; [|simpl; split; [|split]; congruence].
  simpl. by step_with (gather_fixed t c w Hb Hg).
Qed.

Lemma scatter_calls_fixed (ts : list bool) : forall s : State,
  in_bounds (this s) -> scattered (this s) ->
  exists s',
    perform_all (Scatter <$> ts) s = Ok tt s' /\
    pattern (this s') = pattern (this s) /\
    sparse (this s') = sparse (this s) /\
    dense (this s') = dense (this s).
Proof.
  induction ts as [|t ts IH]; intros [c w] Hb Hg; [by eexists|].
  simpl in Hb, Hg.
  destruct (kernel_result_this t c w) as (Hp & Hs & Hd).
  destruct (IH (kernel_result t c w)) as (s' & Hrun & Hp' & Hs' & Hd').
  { by eapply in_bounds_same_buffers. }
  { by eapply scattered_same_buffers. }
  exists s'. split; [|simpl; split; [|split]; congruence].
  simpl. by step_with (scatter_settled t c w Hb Hg).
Qed.

(** X2. [gather] is idempotent: after one call, any number of further
    [gather] calls, timed or not, completes and leaves the dense and the
    sparse buffer exactly as the first call left them; an untimed repeat
    changes nothing at all. *)
Theorem gather_repeats_change_nothing (timed : bool) (s : State) :
  in_bounds (this s) ->
  exists s1,
    gather timed s = Ok tt s1 /\
    gather false s1 = Ok tt s1 /\
    forall ts : list bool, exists s2,
      perform_all (Gather <$> ts) s1 = Ok tt s2 /\
      dense (this s2) = dense (this s1) /\
      sparse (this s2) = sparse (this s1).
Proof.
  destruct s as [c w]. simpl. intros Hb.
  destruct (gather_run timed c w Hb) as (d & Hrun & Hlen & Hget).
  destruct (kernel_result_this timed (set_dense d c) w) as (Hp & Hs & Hd).
  set (s1 := kernel_result timed (set_dense d c) w) in *.
  assert (Hb1 : in_bounds (this s1)).
  { destruct Hb as [Hbd HF]. split; rewrite ?Hp, ?Hs, ?Hd; simpl; [lia|done]. }
  assert (Hg1 : gathered (this s1)).
  { intros i p. rewrite Hp, Hs, Hd. simpl. apply Hget. }
  exists s1. split; [done|]. split.
  - destruct s1 as [c1 w1]. by apply gather_fixed.
  - intros ts. destruct (gather_calls_fixed ts s1 Hb1 Hg1)
      as (s2 & Hrun2 & _ & Hs2 & Hd2).
    by exists s2.
Qed.

(** X3. On a context whose buffers the pattern fits (dense as long as
    the pattern, every pattern element an index of sparse), [scatter] is
    idempotent, repeated indices in the pattern or not: after one call,
    any number of further [scatter] calls, timed or not, completes and
    leaves both buffers exactly as the first call left them; an untimed
    repeat changes nothing at all. *)
Theorem scatter_repeats_change_nothing (timed : bool) (s : State) :
  in_bounds (this s) ->
  exists s1,
    scatter timed s = Ok tt s1 /\
    scatter false s1 = Ok tt s1 /\
    forall ts : list bool, exists s2,
      perform_all (Scatter <$> ts) s1 = Ok tt s2 /\
      dense (this s2) = dense (this s1) /\
      sparse (this s2) = sparse (this s1).
Proof.
  destruct s as [c w]. simpl. intros Hb.
  destruct (scatter_run timed c w Hb) as (sp & Hrun & Hlen & Hlast & Hfree).
  destruct (kernel_result_this timed (set_sparse sp c) w) as (Hp & Hs & Hd).
  set (s1 := kernel_result timed (set_sparse sp c) w) in *.
  assert (Hb1 : in_bounds (this s1)).
  { destruct Hb as [Hbd HF]. split; rewrite ?Hp, ?Hs, ?Hd; simpl; [lia|].
    by rewrite Hlen. }
  assert (Hg1 : scattered (this s1)).
  { intros i p. rewrite Hp, Hs, Hd. simpl. apply Hlast. }
  exists s1. split; [done|]. split.
  - destruct s1 as [c1 w1]. by apply scatter_settled.
  - intros ts. destruct (scatter_calls_fixed ts s1 Hb1 Hg1)
      as (s2 & Hrun2 & _ & Hs2 & Hd2).
    by exists s2.
Qed.

(** X4. On a context whose buffers the pattern fits (dense as long as
    the pattern, every pattern element an index of sparse), [scatter]
    followed by [gather] completes and leaves in [dense[i]] the former
    dense element of the last position that names the same sparse slot as
    position [i]; so for a pattern without repeated indices the dense
    buffer is restored exactly. *)
Theorem scatter_then_gather_dense (t1 t2 : bool) (s : State) :
  in_bounds (this s) ->
  exists s',
    (scatter t1 ;; gather t2) s = Ok tt s' /\
    (forall (i i_last : nat) (p : Z),
       pattern (this s) !! i = Some p ->
       pattern (this s) !! i_last = Some p ->
       (forall i', (i_last < i')%nat -> pattern (this s) !! i' <> Some p) ->
       dense (this s') !! i = dense (this s) !! i_last) /\
    (NoDup (pattern (this s)) -> dense (this s') = dense (this s)).
Proof.
  destruct s as [c w]. simpl. intros Hb.
  destruct (scatter_run t1 c w Hb) as (sp & Hrun & Hlen & Hlast & Hfree).
  destruct (kernel_result_this t1 (set_sparse sp c) w) as (Hp & Hs & Hd).
  destruct (kernel_result t1 (set_sparse sp c) w) as [c1 w1] eqn:E.
  simpl in Hp, Hs, Hd.
  assert (Hb1 : in_bounds c1).
  { destruct Hb as [Hbd HF]. split; rewrite ?Hp, ?Hs, ?Hd; [lia|].
    by rewrite Hlen. }
  destruct (gather_run t2 c1 w1 Hb1) as (d & Hrun2 & Hlen2 & Hget).
  destruct (kernel_result_this t2 (set_dense d c1) w1) as (_ & _ & Hd2).
  exists (kernel_result t2 (set_dense d c1) w1).
  split; [by step_with Hrun|]. rewrite Hd2. simpl.
  assert (Hmain : forall (i i_last : nat) (p : Z),
            pattern c !! i = Some p -> pattern c !! i_last = Some p ->
            (forall i', (i_last < i')%nat -> pattern c !! i' <> Some p) ->
            d !! i = dense c !! i_last).
  { intros i i_last p Hi Hl Hafter.
    rewrite (Hget i p) by (by rewrite Hp). rewrite Hs. by apply Hlast. }
  split; [exact Hmain|].
  intros Hnd. apply list_eq. intros i.
  destruct (pattern c !! i) as [p|] eqn:Hi.
  - apply (Hmain i i p Hi Hi). intros i' Hlt Hi'.
    pose proof (NoDup_lookup _ _ _ _ Hnd Hi Hi'). lia.
  - destruct Hb as [Hbd _]. apply lookup_ge_None in Hi.
    rewrite Hd in Hlen2. simpl in Hlen2.
    rewrite !(proj2 (lookup_ge_None _ _)) by lia. done.
Qed.

(** X5. Timing does not change what a kernel computes: on a context
    whose buffers the pattern fits (dense as long as the pattern, every
    pattern element an index of sparse), a timed and an untimed call of
    [gather], or of [scatter], both complete and leave the same dense and
    sparse buffers. *)
Theorem timing_does_not_change_buffers (s : State) :
  in_bounds (this s) ->
  (exists st su,
     gather true s = Ok tt st /\ gather false s = Ok tt su /\
     dense (this st) = dense (this su) /\
     sparse (this st) = sparse (this su)) /\
  (exists st su,
     scatter true s = Ok tt st /\ scatter false s = Ok tt su /\
     dense (this st) = dense (this su) /\
     sparse (this st) = sparse (this su)).
Proof.
  destruct s as [c w]. simpl. intros Hb. split.
  - destruct (gather_run true c w Hb) as (d1 & Hrun1 & Hlen1 & Hget1).
    destruct (gather_run false c w Hb) as (d2 & Hrun2 & Hlen2 & Hget2).
    eexists _, _. split; [exact Hrun1|]. split; [exact Hrun2|].
    split; [|done]. simpl. apply list_eq. intros i.
    destruct (pattern c !! i) as [p|] eqn:Hi.
    + by rewrite (Hget1 i p Hi), (Hget2 i p Hi).
    + destruct Hb as [Hbd _]. apply lookup_ge_None in Hi.
      rewrite !(proj2 (lookup_ge_None _ _)) by lia. done.
  - destruct (scatter_run true c w Hb) as (s1 & Hrun1 & Hlen1 & Hl1 & Hf1).
    destruct (scatter_run false c w Hb) as (s2 & Hrun2 & Hlen2 & Hl2 & Hf2).
    eexists _, _. split; [exact Hrun1|]. split; [exact Hrun2|].
    split; [done|]. simpl. apply list_eq. intros j.
    destruct (decide (Z.of_nat j ∈ pattern c)) as [Hin|Hout].
    + destruct (last_occurrence _ _ Hin) as (i & Hi & Hafter).
      specialize (Hl1 i _ Hi Hafter). specialize (Hl2 i _ Hi Hafter).
      rewrite Nat2Z.id in Hl1, Hl2. congruence.
    + by rewrite Hf1, Hf2.
Qed.

(** ** Accesses out of range *)

Lemma run_bind_Crash {A B : Type} (m : M A) (f : A -> M B) s e :
  m s = Crash e -> (m ≫= f) s = Crash e.
Proof. intros H. unfold mbind, M_bind. by rewrite H. Qed.

Lemma gather_body_misfit (i : nat) (p : Z) c w :
  pattern c !! i = Some p ->
  (length (dense c) <= i \/ length (sparse c) <= Z.to_nat p)%nat ->
  gather_body i {| this := c; world := w |} = Crash OutOfRange.
Proof.
  intros Hp Hbad.
  unfold gather_body, pattern_at, sparse_at, dense_store, mbind, M_bind, get.
  simpl. rewrite Hp. simpl.
  destruct (sparse c !! Z.to_nat p) as [v|] eqn:Hv; simpl; [|done].
  apply lookup_lt_Some in Hv. rewrite decide_False by lia. done.
Qed.

Lemma scatter_body_misfit (i : nat) (p : Z) c w :
  pattern c !! i = Some p ->
  (length (dense c) <= i \/ length (sparse c) <= Z.to_nat p)%nat ->
  scatter_body i {| this := c; world := w |} = Crash OutOfRange.
Proof.
  intros Hp Hbad.
  unfold scatter_body, pattern_at, dense_at, sparse_store, mbind, M_bind, get.
  simpl. rewrite Hp. simpl.
  destruct (dense c !! i) as [v|] eqn:Hv; simpl; [|done].
  apply lookup_lt_Some in Hv. rewrite decide_False by lia. done.
Qed.

Lemma gather_loop_misfit (count : nat) : forall (lo : nat) c w,
  (lo + count)%nat = length (pattern c) ->
  (exists (i : nat) (p : Z),
     (lo <= i)%nat /\ pattern c !! i = Some p /\
     (length (dense c) <= i \/ length (sparse c) <= Z.to_nat p)%nat) ->
  for_from lo count gather_body {| this := c; world := w |} = Crash OutOfRange.
Proof.
  induction count as [|count IH]; intros lo c w Hlen (i & p & Hi & Hp & Hbad).
  - apply lookup_lt_Some in Hp. lia.
  - destruct (lookup_lt_is_Some_2 (pattern c) lo) as [p0 Hp0]; [lia|].
    destruct (decide (length (dense c) <= lo \/
                      length (sparse c) <= Z.to_nat p0)%nat) as [Hlo|Hlo].
    + simpl. apply run_bind_Crash. by eapply gather_body_misfit.
    + destruct (lookup_lt_is_Some_2 (sparse c) (Z.to_nat p0)) as [v Hv]; [lia|].
      rewrite (for_from_step _ _ _ _ _
                 (gather_body_ok lo p0 v c w Hp0 Hv ltac:(lia))).
      apply IH; simpl; [lia|]. exists i, p. rewrite length_insert.
      split; [|done]. destruct (decide (i = lo)) as [->|]; [|lia].
      assert (p = p0) as -> by congruence. tauto.
Qed.

Lemma scatter_loop_misfit (count : nat) : forall (lo : nat) c w,
  (lo + count)%nat = length (pattern c) ->
  (exists (i : nat) (p : Z),
     (lo <= i)%nat /\ pattern c !! i = Some p /\
     (length (dense c) <= i \/ length (sparse c) <= Z.to_nat p)%nat) ->
  for_from lo count scatter_body {| this := c; world := w |} =
    Crash OutOfRange.
Proof.
  induction count as [|count IH]; intros lo c w Hlen (i & p & Hi & Hp & Hbad).
  - apply lookup_lt_Some in Hp. lia.
  - destruct (lookup_lt_is_Some_2 (pattern c) lo) as [p0 Hp0]; [lia|].
    destruct (decide (length (dense c) <= lo \/
                      length (sparse c) <= Z.to_nat p0)%nat) as [Hlo|Hlo].
    + simpl. apply run_bind_Crash. by eapply scatter_body_misfit.
    + destruct (lookup_lt_is_Some_2 (dense c) lo) as [v Hv]; [lia|].
      rewrite (for_from_step _ _ _ _ _
                 (scatter_body_ok lo p0 v c w Hp0 Hv ltac:(lia))).
      apply IH; simpl; [lia|]. exists i, p. rewrite length_insert.
      split; [|done]. destruct (decide (i = lo)) as [->|]; [|lia].
      assert (p = p0) as -> by congruence. tauto.
Qed.

Lemma kernels_misfit (timed : bool) c w (i : nat) (p : Z) :
  pattern c !! i = Some p ->
  (length (dense c) <= i \/ length (sparse c) <= Z.to_nat p)%nat ->
  gather timed {| this := c; world := w |} = Crash OutOfRange /\
  scatter timed {| this := c; world := w |} = Crash OutOfRange.
Proof.
  intros Hp Hbad.
  assert (Hex : forall T : Timer, exists (i : nat) (p : Z),
            (0 <= i)%nat /\ pattern (set_timer T c) !! i = Some p /\
            (length (dense (set_timer T c)) <= i \/
             length (sparse (set_timer T c)) <= Z.to_nat p)%nat).
  { intros T. exists i, p. simpl. split; [lia|done]. }
  split.
  - unfold gather. destruct timed; simpl when.
    + step_with (timer_start_run c w). step_with pattern_size_run.
      apply run_bind_Crash. apply gather_loop_misfit; [done|]. apply Hex.
    + erewrite run_bind_Ok by reflexivity. step_with pattern_size_run.
      apply run_bind_Crash. apply gather_loop_misfit; [done|].
      exists i, p. split; [lia|done].
  - unfold scatter. destruct timed; simpl when.
    + step_with (timer_start_run c w). step_with pattern_size_run.
      apply run_bind_Crash. apply scatter_loop_misfit; [done|]. apply Hex.
    + erewrite run_bind_Ok by reflexivity. step_with pattern_size_run.
      apply run_bind_Crash. apply scatter_loop_misfit; [done|].
      exists i, p. split; [lia|done].
Qed.

(** X6. Neither kernel checks a bound: when some position of the pattern
    lies beyond the dense buffer, or names a slot beyond the sparse
    buffer, both [gather] and [scatter] access a vector out of range
    (undefined behaviour in C++), timed or not, and [run] with it. *)
Theorem kernels_access_out_of_range
  (timed : bool) (s : State) (i : nat) (p : Z) :
  pattern (this s) !! i = Some p ->
  (length (dense (this s)) <= i \/
   length (sparse (this s)) <= Z.to_nat p)%nat ->
  gather timed s = Crash OutOfRange /\
  scatter timed s = Crash OutOfRange /\
  (kernel (this s) = "gather" \/ kernel (this s) = "scatter" ->
   run timed s = Crash OutOfRange).
Proof.
  destruct s as [c w]. simpl. intros Hp Hbad.
  destruct (kernels_misfit timed c w i p Hp Hbad) as [Hg Hs].
  split; [done|]. split; [done|].
  intros Hk. unfold run. erewrite run_bind_Ok by reflexivity. simpl this.
  case_decide; [by apply run_bind_Crash|].
  destruct Hk as [Hk|Hk]; [done|].
  rewrite decide_True by done. by apply run_bind_Crash.
Qed.

Lemma sparse_size_SIZE_MAX (p : list Z) :
  Forall is_size_t p -> SIZE_MAX ∈ p -> sparse_size p = 0%nat.
Proof.
  intros Hp Hin. destruct (max_pattern_val_from p 0) as (_ & Hall & Hmax).
  fold (max_pattern_val p) in Hall, Hmax.
  assert (max_pattern_val p = SIZE_MAX) as Heq.
  { pose proof (Hall _ Hin) as Hge. destruct Hmax as [H0|Hm].
    - unfold SIZE_MAX in *. lia.
    - rewrite Forall_forall in Hp. specialize (Hp _ Hm).
      unfold is_size_t, SIZE_MAX in *. lia. }
  unfold sparse_size. rewrite Heq. done.
Qed.

(** X7. A pattern of [size_t] values that contains [SIZE_MAX] passes the
    constructor, which leaves the sparse buffer empty (the size
    [max + 1] wraps to 0); every [gather] or [scatter] on that context
    then accesses the sparse buffer out of range. *)
Theorem size_max_pattern_breaks_kernels
  (k : string) (p : list Z) (n v : Z) (w : World) (timed : bool) :
  Forall is_size_t p ->
  SIZE_MAX ∈ p ->
  exists s,
    Configuration_Serial k p n v w = Ok tt s /\
    pattern (this s) = p /\
    sparse (this s) = [] /\
    gather timed s = Crash OutOfRange /\
    scatter timed s = Crash OutOfRange.
Proof.
  intros Hp Hin.
  assert (Hne : p <> []) by (intros ->; by apply elem_of_nil in Hin).
  destruct (Configuration_Serial_run k p n v w Hne)
    as (d & sp & w' & Hrun & Hd & Hs & _).
  fold (sparse_size p) in Hs. rewrite (sparse_size_SIZE_MAX p Hp Hin) in Hs.
  apply nil_length_inv in Hs as ->.
  eexists. split; [exact Hrun|]. split; [done|]. split; [done|].
  destruct p as [|x p]; [done|].
  apply (kernels_misfit timed _ _ 0%nat x); [done|].
  right. simpl. lia.
Qed.

(** ** The OpenMP context *)

Lemma for_each_step (i : nat) (rest : list nat) (body : nat -> M unit) s s' :
  body i s = Ok tt s' ->
  for_each (i :: rest) body s = for_each rest body s'.
Proof. intros H. simpl. unfold mbind, M_bind. by rewrite H. Qed.

(** The gather iterations of a list of positions, in the order of the
    list: the positions of the list receive their sparse element, the
    others keep their value. *)
Lemma gather_each_spec (l : list nat) : forall c w,
  Forall (fun i => i < length (pattern c))%nat l ->
  length (dense c) = length (pattern c) ->
  Forall (fun p => 0 <= p < Z.of_nat (length (sparse c))) (pattern c) ->
  exists d,
    for_each l gather_body {| this := c; world := w |} =
      Ok tt {| this := set_dense d c; world := w |} /\
    length d = length (dense c) /\
    (forall j p, j ∈ l -> pattern c !! j = Some p ->
       d !! j = sparse c !! Z.to_nat p) /\
    (forall j, j ∉ l -> d !! j = dense c !! j).
Proof.
  induction l as [|a l IH]; intros c w Hl Hd HF.
  - exists (dense c). rewrite set_dense_same.
    split; [done|]. split; [done|]. split; [|done].
    intros j p Hj. by apply elem_of_nil in Hj.
  - apply Forall_cons in Hl as [Ha Hl].
    destruct (lookup_lt_is_Some_2 (pattern c) a Ha) as [p Hp].
    destruct (in_bounds_lookup c a p HF Hp) as [Hp0 Hps].
    destruct (lookup_lt_is_Some_2 (sparse c) (Z.to_nat p) Hps) as [v Hv].
    rewrite (for_each_step _ _ _ _ _
               (gather_body_ok a p v c w Hp Hv ltac:(lia))).
    destruct (IH (set_dense (<[a := v]> (dense c)) c) w)
      as (d & Hrun & Hdl & Hin & Hout); simpl.
    + done.
    + by rewrite length_insert.
    + done.
    + exists d. simpl in *. rewrite length_insert in Hdl.
      split; [exact Hrun|]. split; [done|]. split.
      * intros j q Hj Hq. destruct (decide (j ∈ l)) as [Hjl|Hjl].
        -- by apply Hin.
        -- apply elem_of_cons in Hj as [->|Hj]; [|done].
           rewrite Hout by done. rewrite list_lookup_insert_eq by lia.
           congruence.
      * intros j Hj. apply not_elem_of_cons in Hj as [Hne Hj].
        rewrite Hout by done. by apply list_lookup_insert_ne.
Qed.

(** The scatter iterations of a list of positions, in the order of the
    list, over a pattern without repeated indices. *)
Lemma scatter_each_spec (l : list nat) : forall c w,
  NoDup (pattern c) ->
  Forall (fun i => i < length (pattern c))%nat l ->
  length (dense c) = length (pattern c) ->
  Forall (fun p => 0 <= p < Z.of_nat (length (sparse c))) (pattern c) ->
  exists sp,
    for_each l scatter_body {| this := c; world := w |} =
      Ok tt {| this := set_sparse sp c; world := w |} /\
    length sp = length (sparse c) /\
    (forall i p, i ∈ l -> pattern c !! i = Some p ->
       sp !! Z.to_nat p = dense c !! i) /\
    (forall j : nat,
       (forall i, i ∈ l -> pattern c !! i <> Some (Z.of_nat j)) ->
       sp !! j = sparse c !! j).
Proof.
  induction l as [|a l IH]; intros c w Hnd Hl Hd HF.
  - exists (sparse c). rewrite set_sparse_same.
    split; [done|]. split; [done|]. split; [|done].
    intros i p Hi. by apply elem_of_nil in Hi.
  - apply Forall_cons in Hl as [Ha Hl].
    destruct (lookup_lt_is_Some_2 (pattern c) a Ha) as [p Hp].
    destruct (in_bounds_lookup c a p HF Hp) as [Hp0 Hps].
    destruct (lookup_lt_is_Some_2 (dense c) a) as [v Hv]; [lia|].
    rewrite (for_each_step _ _ _ _ _ (scatter_body_ok a p v c w Hp Hv Hps)).
    destruct (IH (set_sparse (<[Z.to_nat p := v]> (sparse c)) c) w)
      as (sp & Hrun & Hsl & Hin & Hfree); simpl.
    + done.
    + done.
    + done.
    + by rewrite length_insert.
    + exists sp. simpl in *. rewrite length_insert in Hsl.
      split; [exact Hrun|]. split; [done|]. split.
      * intros i q Hi Hq. destruct (decide (i ∈ l)) as [Hil|Hil].
        -- by apply Hin.
        -- apply elem_of_cons in Hi as [->|Hi]; [|done].
           assert (q = p) as -> by congruence.
           rewrite Hfree.
           ++ rewrite list_lookup_insert_eq by lia. congruence.
           ++ intros i' Hi' Hpi'. rewrite Z2Nat.id in Hpi' by lia.
              pose proof (NoDup_lookup _ _ _ _ Hnd Hp Hpi'). by subst.
      * intros j Hj. rewrite Hfree.
        -- apply list_lookup_insert_ne. intros <-.
           apply (Hj a); [apply elem_of_cons; by left|].
           rewrite Z2Nat.id by lia. done.
        -- intros i Hi. apply Hj. apply elem_of_cons. by right.
Qed.

Lemma is_schedule_elem (schedule : list nat) (n i : nat) :
  is_schedule schedule n -> i ∈ schedule <-> (i < n)%nat.
Proof.
  unfold is_schedule. intros ->. rewrite elem_of_seq. lia.
Qed.

Lemma is_schedule_Forall (schedule : list nat) (n : nat) :
  is_schedule schedule n -> Forall (fun i => i < n)%nat schedule.
Proof.
  intros H. apply Forall_forall. intros i Hi.
  by apply (is_schedule_elem _ _ _ H).
Qed.

(** X8. The OpenMP [gather] gives the result of the Serial [gather]
    whatever the order in which the iterations of its parallel loop take
    effect: the whole outcome, buffers and timing, is the same. *)
Theorem OpenMP_gather_any_schedule
  (schedule : list nat) (timed : bool) (s : State) :
  is_schedule schedule (length (pattern (this s))) ->
  in_bounds (this s) ->
  OpenMP_gather schedule timed s = gather timed s.
Proof.
  destruct s as [c w]. simpl. intros Hsch Hb.
  destruct (gather_run timed c w Hb) as (d & Hrun & Hlen & Hget).
  rewrite Hrun. destruct Hb as [Hd HF].
  assert (Hpar : forall c0 w0,
            pattern c0 = pattern c -> sparse c0 = sparse c ->
            dense c0 = dense c ->
            for_each schedule gather_body {| this := c0; world := w0 |} =
              Ok tt {| this := set_dense d c0; world := w0 |}).
  { intros c0 w0 Hp0 Hs0 Hd0.
    destruct (gather_each_spec schedule c0 w0) as (d' & Hrun' & Hlen' & Hin & _).
    - rewrite Hp0. by apply is_schedule_Forall.
    - by rewrite Hp0, Hd0.
    - by rewrite Hp0, Hs0.
    - rewrite Hrun'. assert (d' = d) as ->; [|done].
      apply list_eq. intros i. destruct (pattern c !! i) as [p|] eqn:Hi.
      + rewrite (Hget i p Hi). rewrite <- Hs0. apply Hin; [|by rewrite Hp0].
        apply (is_schedule_elem _ _ _ Hsch). by eapply lookup_lt_Some.
      + apply lookup_ge_None in Hi. rewrite Hd0 in Hlen'.
        rewrite !(proj2 (lookup_ge_None _ _)) by lia. done. }
  unfold OpenMP_gather. destruct timed; simpl when.
  - step_with (timer_start_run c w).
    erewrite run_bind_Ok by (by apply Hpar).
    by rewrite (timer_epilogue_run _ _ (clock (clock_reads w))).
  - erewrite run_bind_Ok by reflexivity.
    erewrite run_bind_Ok by (by apply Hpar). done.
Qed.

(** X9. Over a pattern without repeated indices, where its iterations
    write distinct sparse slots, the OpenMP [scatter] gives the result of
    the Serial [scatter] whatever the order in which the iterations of its
    parallel loop take effect. *)
Theorem OpenMP_scatter_any_schedule
  (schedule : list nat) (timed : bool) (s : State) :
  NoDup (pattern (this s)) ->
  is_schedule schedule (length (pattern (this s))) ->
  in_bounds (this s) ->
  OpenMP_scatter schedule timed s = scatter timed s.
Proof.
  destruct s as [c w]. simpl. intros Hnd Hsch Hb.
  destruct (scatter_run timed c w Hb) as (sp & Hrun & Hlen & Hlast & Hfree).
  rewrite Hrun. destruct Hb as [Hd HF].
  assert (Hpar : forall c0 w0,
            pattern c0 = pattern c -> sparse c0 = sparse c ->
            dense c0 = dense c ->
            for_each schedule scatter_body {| this := c0; world := w0 |} =
              Ok tt {| this := set_sparse sp c0; world := w0 |}).
  { intros c0 w0 Hp0 Hs0 Hd0.
    destruct (scatter_each_spec schedule c0 w0)
      as (sp' & Hrun' & Hlen' & Hin & Hout).
    - by rewrite Hp0.
    - rewrite Hp0. by apply is_schedule_Forall.
    - by rewrite Hp0, Hd0.
    - by rewrite Hp0, Hs0.
    - rewrite Hrun'. assert (sp' = sp) as ->; [|done].
      apply list_eq. intros j.
      destruct (decide (Z.of_nat j ∈ pattern c)) as [Hj|Hj].
      + apply list_elem_of_lookup in Hj as [i Hi].
        assert (Hi' : i ∈ schedule).
        { apply (is_schedule_elem _ _ _ Hsch). by eapply lookup_lt_Some. }
        rewrite Hp0 in Hin. specialize (Hin i _ Hi' Hi).
        assert (Hl : sp !! Z.to_nat (Z.of_nat j) = dense c !! i).
        { apply Hlast; [done|]. intros i' Hlt Hi2.
          pose proof (NoDup_lookup _ _ _ _ Hnd Hi Hi2). lia. }
        rewrite Nat2Z.id in Hin, Hl. congruence.
      + rewrite (Hfree j Hj). rewrite <- Hs0. apply Hout.
        intros i _ Hi. rewrite Hp0 in Hi. apply Hj.
        by eapply list_elem_of_lookup_2. }
  unfold OpenMP_scatter. destruct timed; simpl when.
  - step_with (timer_start_run c w).
    erewrite run_bind_Ok by (by apply Hpar).
    by rewrite (timer_epilogue_run _ _ (clock (clock_reads w))).
  - erewrite run_bind_Ok by reflexivity.
    erewrite run_bind_Ok by (by apply Hpar). done.
Qed.

Lemma setup_independent_of_cout c w1 w2 :
  pattern c <> [] ->
  rand_calls w1 = rand_calls w2 ->
  cerr w1 = cerr w2 ->
  clock_reads w1 = clock_reads w2 ->
  exists c' w1' w2',
    ConfigurationBase_setup {| this := c; world := w1 |} =
      Ok tt {| this := c'; world := w1' |} /\
    ConfigurationBase_setup {| this := c; world := w2 |} =
      Ok tt {| this := c'; world := w2' |} /\
    rand_calls w1' = rand_calls w2' /\ cerr w1' = cerr w2' /\
    clock_reads w1' = clock_reads w2'.
Proof.
  intros Hne Hr He Hc.
  destruct (ConfigurationBase_setup_values c w1 Hne)
    as (d1 & sp1 & w1' & Hrun1 & Hd1 & Hs1 & Hdv1 & Hsv1 & Hr1 & He1 & Hc1).
  destruct (ConfigurationBase_setup_values c w2 Hne)
    as (d2 & sp2 & w2' & Hrun2 & Hd2 & Hs2 & Hdv2 & Hsv2 & Hr2 & He2 & Hc2).
  assert (d2 = d1) as ->.
  { apply list_eq. intros i.
    destruct (decide (i < length (pattern c))%nat).
    - rewrite Hdv1, Hdv2 by done. by rewrite Hr.
    - rewrite !(proj2 (lookup_ge_None _ _)) by lia. done. }
  assert (sp2 = sp1) as ->.
  { apply list_eq. intros j.
    destruct (decide (j < sparse_size (pattern c))%nat).
    - rewrite Hsv1, Hsv2 by done. by rewrite Hr.
    - rewrite !(proj2 (lookup_ge_None _ _)) by lia. done. }
  eexists _, w1', w2'. split; [exact Hrun1|]. split; [exact Hrun2|].
  split; [lia|]. split; congruence.
Qed.

Lemma banner_then_setup (banner : list item) c w :
  (s ← get;
   when (bool_decide (verbosity (this s) >= 3)) (print banner) ;;
   ConfigurationBase_setup) {| this := c; world := w |} =
  ConfigurationBase_setup
    {| this := c;
       world := if bool_decide (verbosity c >= 3)
                then write_cout banner w else w |}.
Proof.
  unfold mbind, M_bind, get, when. simpl. by case_bool_decide.
Qed.

(** What [ConfigurationBase::setup] writes on [cout] on a non-empty
    pattern: the line of sizes of the context it leaves, at verbosity 3 or
    more, and nothing below. *)
Lemma ConfigurationBase_setup_cout c w :
  pattern c <> [] ->
  exists c' w',
    ConfigurationBase_setup {| this := c; world := w |} =
      Ok tt {| this := c'; world := w' |} /\
    cout w' = (cout w ++ setup_output c')%list.
Proof.
  intros Hne. unfold ConfigurationBase_setup.
  step_with pattern_size_run. simpl this.
  rewrite decide_False by (by destruct (pattern c)).
  erewrite run_bind_Ok by reflexivity.
  erewrite run_bind_Ok by reflexivity. simpl this.
  set (c1 := set_dense (resize (length (pattern c)) (dense c)) c).
  destruct (fill_dense_loop (length (pattern c)) 0 c1 w)
    as (d & w1 & Hrun1 & Hd & Hw1).
  { simpl. by rewrite length_resize. }
  step_with Hrun1.
  erewrite run_bind_Ok by reflexivity. cbv zeta. simpl this. simpl pattern.
  erewrite run_bind_Ok by reflexivity. simpl this.
  set (size := Z.to_nat (wrap64 (max_pattern_val (pattern c) + 1))).
  set (c2 := set_sparse (resize size (sparse (set_dense d c1))) (set_dense d c1)).
  destruct (fill_sparse_loop size 0 c2 w1) as (sp & w2 & Hrun2 & Hs & Hw2).
  { simpl. by rewrite length_resize. }
  step_with Hrun2.
  erewrite run_bind_Ok by reflexivity.
  destruct Hw1 as (Ho1 & _). destruct Hw2 as (Ho2 & _).
  unfold when, setup_output. simpl verbosity. case_bool_decide.
  - eexists _, _. split; [reflexivity|]. simpl.
    rewrite bool_decide_true by done. by rewrite Ho2, Ho1.
  - eexists _, _. split; [reflexivity|]. simpl.
    rewrite bool_decide_false by done. by rewrite app_nil_r, Ho2, Ho1.
Qed.

(** X10. The OpenMP and the Serial constructor, given the same arguments
    in the same process, build the same context: both exit with status 1
    on the empty pattern, and otherwise both complete with equal objects
    (pattern, buffers and their contents, kernel, counters) after the
    same number of [rand] calls.  They differ in the banner on [cout]
    only: at verbosity 3 or more the Serial constructor appends
    "Spatter Serial Setup" and the OpenMP constructor "Spatter OpenMP
    Setup", each followed by the same line of sizes when the pattern is
    not empty; below 3 neither writes on [cout]. *)
Theorem OpenMP_constructor_agrees_with_Serial
  (k : string) (p : list Z) (n v : Z) (w : World) :
  exists s1 s2 out,
    ((p <> [] /\ Configuration_Serial k p n v w = Ok tt s1 /\
      Configuration_OpenMP k p n v w = Ok tt s2 /\
      out = setup_output (this s1)) \/
     (p = [] /\ Configuration_Serial k p n v w = Exit 1 s1 /\
      Configuration_OpenMP k p n v w = Exit 1 s2 /\
      out = [])) /\
    this s1 = this s2 /\
    rand_calls (world s1) = rand_calls (world s2) /\
    cerr (world s1) = cerr (world s2) /\
    clock_reads (world s1) = clock_reads (world s2) /\
    cout (world s1) =
      (cout w ++ setup_banner v "Spatter Serial Setup" ++ out)%list /\
    cout (world s2) =
      (cout w ++ setup_banner v "Spatter OpenMP Setup" ++ out)%list.
Proof.
  unfold Configuration_Serial, Configuration_OpenMP, setup, OpenMP_setup.
  rewrite !banner_then_setup.
  set (c := ConfigurationBase_new k p n v).
  set (w1 := if bool_decide (verbosity c >= 3)
             then write_cout [Str "Spatter Serial Setup"; Endl] w else w).
  set (w2 := if bool_decide (verbosity c >= 3)
             then write_cout [Str "Spatter OpenMP Setup"; Endl] w else w).
  assert (Hw : rand_calls w1 = rand_calls w2 /\ cerr w1 = cerr w2 /\
               clock_reads w1 = clock_reads w2).
  { unfold w1, w2. by case_bool_decide. }
  assert (Ho1 : cout w1 =
            (cout w ++ setup_banner v "Spatter Serial Setup")%list).
  { unfold w1, setup_banner. simpl verbosity.
    case_bool_decide; [done|by rewrite app_nil_r]. }
  assert (Ho2 : cout w2 =
            (cout w ++ setup_banner v "Spatter OpenMP Setup")%list).
  { unfold w2, setup_banner. simpl verbosity.
    case_bool_decide; [done|by rewrite app_nil_r]. }
  destruct Hw as (Hr & He & Hc).
  destruct p as [|x p].
  - unfold ConfigurationBase_setup, mbind, M_bind. simpl.
    eexists _, _, _.
    split; [right; split; [done|]; split; [reflexivity|];
            split; reflexivity|].
    simpl. rewrite !app_nil_r. by rewrite Hr, He, Hc, Ho1, Ho2.
  - destruct (setup_independent_of_cout c w1 w2)
      as (c' & w1' & w2' & H1 & H2 & Hr' & He' & Hc'); [done..|].
    destruct (ConfigurationBase_setup_cout c w1) as (c1 & w1'' & H1' & Hout1);
      [done|].
    destruct (ConfigurationBase_setup_cout c w2) as (c2 & w2'' & H2' & Hout2);
      [done|].
    rewrite H1 in H1'. injection H1' as <- <-.
    rewrite H2 in H2'. injection H2' as <- <-.
    eexists _, _, _.
    split; [left; split; [done|]; split; [exact H1|];
            split; [exact H2|reflexivity]|].
    simpl. rewrite Hout1, Hout2, Ho1, Ho2, <- !app_assoc. done.
Qed.

(** ** The sign of the bandwidth *)

Lemma shr_fexp_nonneg (m e : Z) (l : location) :
  0 <= m -> 0 <= shr_m (shr_fexp prec emax m e l).1.
Proof.
  intros Hm. unfold shr_fexp, shr.
  destruct (fexp prec emax (Zdigits2 m + e) - e) as [|q|q]; cbn [fst];
    rewrite ?shr_record_of_loc_m; try done.
  rewrite iter_pos_shr_m by (by rewrite shr_record_of_loc_m).
  rewrite shr_record_of_loc_m. apply Z.div_pos; lia.
Qed.

Lemma binary_round_aux_nonneg (m e : Z) (l : location) :
  0 <= m -> nonneg_double (binary_round_aux prec emax false m e l).
Proof.
  intros Hm. unfold binary_round_aux.
  pose proof (shr_fexp_nonneg m e l Hm) as H1.
  destruct (shr_fexp prec emax m e l) as [mrs1 e1]. cbn [fst] in H1.
  pose proof (round_nearest_even_ge (shr_m mrs1) (loc_of_shr_record mrs1)) as Hr.
  pose proof (shr_fexp_nonneg
                (round_nearest_even (shr_m mrs1) (loc_of_shr_record mrs1))
                e1 loc_Exact ltac:(lia)) as H2.
  destruct (shr_fexp prec emax _ e1 loc_Exact) as [mrs2 e2]. cbn [fst] in H2.
  destruct (shr_m mrs2) as [|q|q]; [done| |lia].
  by destruct (e2 <=? emax - prec)%Z.
Qed.

Lemma ddiv_nonneg (x : double) (m : positive) (e : Z) :
  nonneg_double x -> nonneg_double (ddiv x (S754_finite false m e)).
Proof.
  destruct x as [[]|[]| |[] mx ex]; try done. intros _.
  unfold ddiv, SFdiv. cbn [xorb].
  destruct (SFdiv_core_binary prec emax (Z.pos mx) ex (Z.pos m) e)
    as [[mz ez] lz] eqn:Hdiv.
  apply binary_round_aux_nonneg.
  unfold SFdiv_core_binary in Hdiv.
  set (s := (ex - e - _)%Z) in Hdiv.
  set (m' := match s with
             | Z.pos _ => Z.shiftl (Z.pos mx) s
             | 0 => Z.pos mx
             | Z.neg _ => 0
             end) in Hdiv.
  assert (Hm' : 0 <= m').
  { unfold m'. destruct s; [lia| |lia]. apply Z.shiftl_nonneg. lia. }
  pose proof (Z.div_pos m' (Z.pos m) Hm' ltac:(lia)) as Hq.
  unfold Z.div in Hq. destruct (Z.div_eucl m' (Z.pos m)) as [q r].
  inversion Hdiv; subst. exact Hq.
Qed.

Lemma double_of_Z_nonneg (z : Z) : 0 <= z -> nonneg_double (double_of_Z z).
Proof.
  intros Hz. destruct (decide (z = 0)) as [->|Hne]; [done|].
  destruct (double_of_Z_pos z ltac:(lia)) as [(m & e & ->)| ->]; done.
Qed.

(** X11. When [time_seconds] is a positive finite double, the bandwidth
    [report] writes is never NaN and never negative: it is [+0], a
    positive finite double, or [+infinity]. *)
Theorem bandwidth_is_a_nonnegative_number
  (c : Configuration) (m : positive) (e : Z) :
  time_seconds c = S754_finite false m e ->
  nonneg_double (average_bandwidth c) /\
  Dbl (average_bandwidth c) ∈ report_output c.
Proof.
  intros HT. split.
  - unfold average_bandwidth. rewrite HT.
    apply ddiv_nonneg, ddiv_nonneg, double_of_Z_nonneg.
    unfold total_bytes_moved, wrap64. apply Z.mod_pos_bound. lia.
  - unfold report_output. rewrite !elem_of_cons. tauto.
Qed.

(** ** Kernel names, again *)

(** X12. The constructor tells kernel names apart up to the case of their
    letters and no further: two names give the same outcome, for the same
    other arguments, exactly when they are equal with the case of letters
    ignored. *)
Theorem constructor_ignores_case_only
  (k k' : string) (p : list Z) (n v : Z) (w : World) :
  iequals k k' = true <->
  Configuration_Serial k p n v w = Configuration_Serial k' p n v w.
Proof.
  rewrite iequals_transform. split.
  - intros H. unfold Configuration_Serial, ConfigurationBase_new. by rewrite H.
  - intros H.
    assert (Hk : forall k0, kernel (this (state_of
                   (Configuration_Serial k0 p n v w)
                   {| this := ConfigurationBase_new "" p n v; world := w |})) =
                 transform tolower k0).
    { intros k0. destruct p as [|x p].
      - unfold Configuration_Serial, setup, ConfigurationBase_setup.
        unfold mbind, M_bind, when. simpl. by case_bool_decide.
      - destruct (Configuration_Serial_run k0 (x :: p) n v w)
          as (d & sp & w' & Hrun & _); [done|]. by rewrite Hrun. }
    rewrite <- (Hk k), <- (Hk k'). by rewrite H.
Qed.

(** ** The text of [operator<<] *)

Lemma pretty_N_char_digit (x : N) : is_digit (pretty_N_char x) = true.
Proof. unfold pretty_N_char. by repeat case_match. Qed.

Lemma pretty_N_go_digits (x : N) : forall s : string,
  digit_string s -> digit_string (pretty_N_go x s).
Proof.
  induction (N.lt_wf_0 x) as [x _ IH]; intros s Hs.
  destruct (decide (x = 0)%N) as [->|Hx]; [by rewrite pretty_N_go_0|].
  rewrite pretty_N_go_step by lia. apply IH.
  - apply N.div_lt; lia.
  - split; [apply pretty_N_char_digit|done].
Qed.

Lemma pretty_N_go_nonempty (x : N) : forall s : string,
  (x <> 0)%N \/ s <> "" -> pretty_N_go x s <> "".
Proof.
  induction (N.lt_wf_0 x) as [x _ IH]; intros s Hs.
  destruct (decide (x = 0)%N) as [->|Hx].
  - rewrite pretty_N_go_0. by destruct Hs.
  - rewrite pretty_N_go_step by lia. apply IH; [apply N.div_lt; lia|].
    by right.
Qed.

Lemma show_size_t_digits (n : Z) :
  digit_string (show_size_t n) /\ show_size_t n <> "".
Proof.
  unfold show_size_t, pretty, pretty_N. case_decide; [done|].
  split; [by apply pretty_N_go_digits|apply pretty_N_go_nonempty; by left].
Qed.

Lemma show_size_t_inj (n n' : Z) :
  0 <= n -> 0 <= n' -> show_size_t n = show_size_t n' -> n = n'.
Proof.
  intros Hn Hn' H. unfold show_size_t in H.
  apply pretty_N_inj in H. lia.
Qed.

Lemma append_cons (a : ascii) (s t : string) :
  String a s +:+ t = String a (s +:+ t).
Proof. reflexivity. Qed.

Lemma append_empty (t : string) : "" +:+ t = t.
Proof. reflexivity. Qed.

(** Two strings of digits, each followed by a text that stops the digits,
    are equal when the whole texts are. *)
Lemma digit_prefix_unique (a : string) : forall b ta tb : string,
  digit_string a -> digit_string b -> stops_digits ta -> stops_digits tb ->
  a +:+ ta = b +:+ tb -> a = b /\ ta = tb.
Proof.
  induction a as [|x a IH]; intros [|y b] ta tb Ha Hb Hta Htb H;
    rewrite ?append_cons, ?append_empty in H.
  - done.
  - subst ta. simpl in Hta, Hb. destruct Hb. congruence.
  - subst tb. simpl in Htb, Ha. destruct Ha. congruence.
  - injection H as -> H. destruct Ha as [_ Ha], Hb as [_ Hb].
    destruct (IH b ta tb Ha Hb Hta Htb H) as [-> ->]. done.
Qed.

Lemma ostream_joiner_rest_stops (l : list Z) :
  stops_digits (ostream_joiner ", " false l).
Proof. by destruct l. Qed.

Lemma ostream_joiner_rest_inj (l : list Z) : forall l' : list Z,
  Forall (fun x => 0 <= x) l -> Forall (fun x => 0 <= x) l' ->
  ostream_joiner ", " false l = ostream_joiner ", " false l' -> l = l'.
Proof.
  induction l as [|x l IH]; intros [|x' l'] Hl Hl' H; try done.
  apply Forall_cons in Hl as [Hx Hl]. apply Forall_cons in Hl' as [Hx' Hl'].
  cbn [ostream_joiner] in H. rewrite !append_cons, !append_empty in H.
  injection H as H.
  destruct (digit_prefix_unique _ _ _ _
              (proj1 (show_size_t_digits x)) (proj1 (show_size_t_digits x'))
              (ostream_joiner_rest_stops l) (ostream_joiner_rest_stops l') H)
    as [Hs Hr].
  f_equal; [by apply show_size_t_inj|by apply IH].
Qed.

Lemma ostream_joiner_inj (l l' : list Z) :
  Forall (fun x => 0 <= x) l -> Forall (fun x => 0 <= x) l' ->
  ostream_joiner ", " true l = ostream_joiner ", " true l' -> l = l'.
Proof.
  destruct l as [|x l], l' as [|x' l']; intros Hl Hl' H; try done.
  - cbn [ostream_joiner] in H. rewrite append_empty in H.
    destruct (show_size_t_digits x') as [_ Hne].
    destruct (show_size_t x'); [done|discriminate].
  - cbn [ostream_joiner] in H. rewrite append_empty in H.
    destruct (show_size_t_digits x) as [_ Hne].
    destruct (show_size_t x); [done|discriminate].
  - apply Forall_cons in Hl as [Hx Hl]. apply Forall_cons in Hl' as [Hx' Hl'].
    cbn [ostream_joiner] in H. rewrite !append_empty in H.
    destruct (digit_prefix_unique _ _ _ _
                (proj1 (show_size_t_digits x)) (proj1 (show_size_t_digits x'))
                (ostream_joiner_rest_stops l) (ostream_joiner_rest_stops l') H)
      as [Hs Hr].
    f_equal; [by apply show_size_t_inj|by apply ostream_joiner_rest_inj].
Qed.

Lemma one_line_app (s t : string) :
  one_line (s +:+ t) <-> one_line s /\ one_line t.
Proof.
  induction s as [|a s IH]; rewrite ?append_cons, ?append_empty; simpl.
  - tauto.
  - rewrite IH. tauto.
Qed.

Lemma digit_string_one_line (s : string) : digit_string s -> one_line s.
Proof.
  induction s as [|a s IH]; simpl; [done|]. intros [Ha Hs].
  split; [|by apply IH]. intros ->. discriminate.
Qed.

Lemma ostream_joiner_one_line (first : bool) (l : list Z) :
  one_line (ostream_joiner ", " first l).
Proof.
  revert first. induction l as [|x l IH]; intros first; [done|].
  cbn [ostream_joiner]. rewrite !one_line_app.
  split; [by destruct first|].
  split; [apply digit_string_one_line, show_size_t_digits|apply IH].
Qed.

(** Two texts that end in a line feed followed by one more line are equal
    only when what precedes the line feed and that last line are. *)
Lemma last_line_unique (s : string) : forall s' t t' : string,
  one_line t -> one_line t' ->
  s +:+ String "010" t = s' +:+ String "010" t' -> s = s' /\ t = t'.
Proof.
  induction s as [|a s IH]; intros [|a' s'] t t' Ht Ht' H;
    rewrite ?append_cons, ?append_empty in H.
  - by injection H as ->.
  - injection H as <- ->. apply one_line_app in Ht as [_ Ht].
    simpl in Ht. by destruct Ht.
  - injection H as -> <-. apply one_line_app in Ht' as [_ Ht'].
    simpl in Ht'. by destruct Ht'.
  - injection H as -> H. by destruct (IH s' t t' Ht Ht' H) as [-> ->].
Qed.

(** X13. At verbosity 2 or more, what [operator<<] writes identifies the
    configuration it describes: two configurations with patterns of
    [size_t] values for which it writes the same text have the same
    kernel name and the same pattern.  (The elements are written in
    order, in decimal, with ", " between them and none at the end.) *)
Theorem operator_shl_identifies_configuration (c c' : Configuration) :
  verbosity c >= 2 -> verbosity c' >= 2 ->
  Forall (fun x => 0 <= x) (pattern c) ->
  Forall (fun x => 0 <= x) (pattern c') ->
  operator_shl c = operator_shl c' ->
  kernel c = kernel c' /\ pattern c = pattern c'.
Proof.
  intros Hv Hv' Hp Hp' H. unfold operator_shl, config_output, newline in H.
  rewrite !bool_decide_eq_true_2 in H by lia.
  injection H as H.
  repeat (rewrite append_cons in H || rewrite append_empty in H).
  apply last_line_unique in H as [Hk H].
  - split; [done|]. injection H as H. by apply ostream_joiner_inj.
  - split; [done|]. split; [done|]. repeat (split; [done|]).
    apply ostream_joiner_one_line.
  - repeat (split; [done|]). apply ostream_joiner_one_line.
Qed.

(** ** The kernels on any context, and on the contexts the constructor
       builds *)

Lemma gather_body_outcome (i : nat) c w :
  gather_body i {| this := c; world := w |} = Crash OutOfRange \/
  exists v,
    gather_body i {| this := c; world := w |} =
      Ok tt {| this := set_dense (<[i := v]> (dense c)) c; world := w |}.
Proof.
  unfold gather_body, pattern_at, sparse_at, dense_store, mbind, M_bind, get.
  simpl. destruct (pattern c !! i) as [p|]; simpl; [|by left].
  destruct (sparse c !! Z.to_nat p) as [v|]; simpl; [|by left].
  destruct (decide (i < length (dense c))%nat); [right; by exists v|by left].
Qed.

Lemma scatter_body_outcome (i : nat) c w :
  scatter_body i {| this := c; world := w |} = Crash OutOfRange \/
  exists (j : nat) v,
    scatter_body i {| this := c; world := w |} =
      Ok tt {| this := set_sparse (<[j := v]> (sparse c)) c; world := w |}.
Proof.
  unfold scatter_body, pattern_at, dense_at, sparse_store, mbind, M_bind, get.
  simpl. destruct (pattern c !! i) as [p|]; simpl; [|by left].
  destruct (dense c !! i) as [v|]; simpl; [|by left].
  destruct (decide (Z.to_nat p < length (sparse c))%nat); [|by left].
  right. by exists (Z.to_nat p), v.
Qed.

(** The loop of [gather] on any context: it runs into an access out of
    range, or completes with the dense buffer alone replaced. *)
Lemma gather_loop_outcome (count : nat) : forall (lo : nat) c w,
  for_from lo count gather_body {| this := c; world := w |} =
    Crash OutOfRange \/
  exists d,
    for_from lo count gather_body {| this := c; world := w |} =
      Ok tt {| this := set_dense d c; world := w |} /\
    length d = length (dense c).
Proof.
  induction count as [|count IH]; intros lo c w.
  - right. exists (dense c). by rewrite set_dense_same.
  - destruct (gather_body_outcome lo c w) as [Hc|(v & Hok)].
    + left. simpl. by apply run_bind_Crash.
    + rewrite (for_from_step _ _ _ _ _ Hok).
      destruct (IH (S lo) (set_dense (<[lo := v]> (dense c)) c) w)
        as [Hc|(d & Hrun & Hlen)]; [by left|].
      right. exists d. simpl in Hlen. rewrite length_insert in Hlen.
      split; [exact Hrun|exact Hlen].
Qed.

Lemma scatter_loop_outcome (count : nat) : forall (lo : nat) c w,
  for_from lo count scatter_body {| this := c; world := w |} =
    Crash OutOfRange \/
  exists sp,
    for_from lo count scatter_body {| this := c; world := w |} =
      Ok tt {| this := set_sparse sp c; world := w |} /\
    length sp = length (sparse c).
Proof.
  induction count as [|count IH]; intros lo c w.
  - right. exists (sparse c). by rewrite set_sparse_same.
  - destruct (scatter_body_outcome lo c w) as [Hc|(j & v & Hok)].
    + left. simpl. by apply run_bind_Crash.
    + rewrite (for_from_step _ _ _ _ _ Hok).
      destruct (IH (S lo) (set_sparse (<[j := v]> (sparse c)) c) w)
        as [Hc|(sp & Hrun & Hlen)]; [by left|].
      right. exists sp. simpl in Hlen. rewrite length_insert in Hlen.
      split; [exact Hrun|exact Hlen].
Qed.

(** A call of [gather] on any context. *)
Lemma gather_outcome (timed : bool) c w :
  gather timed {| this := c; world := w |} = Crash OutOfRange \/
  exists d,
    gather timed {| this := c; world := w |} =
      Ok tt (kernel_result timed (set_dense d c) w) /\
    length d = length (dense c).
Proof.
  unfold gather. destruct timed; simpl when.
  - pose (c0 := set_timer {| started := Some (clock (clock_reads w));
                             bracket := bracket (timer c) |} c).
    destruct (gather_loop_outcome (length (pattern c)) 0 c0 (tick_clock w))
      as [Hc|(d & Hrun & Hlen)].
    + left. step_with (timer_start_run c w). step_with pattern_size_run.
      by apply run_bind_Crash.
    + right. exists d. split; [|done].
      step_with (timer_start_run c w). step_with pattern_size_run.
      step_with Hrun. by rewrite (timer_epilogue_run _ _ (clock (clock_reads w))).
  - destruct (gather_loop_outcome (length (pattern c)) 0 c w)
      as [Hc|(d & Hrun & Hlen)].
    + left. erewrite run_bind_Ok by reflexivity. step_with pattern_size_run.
      by apply run_bind_Crash.
    + right. exists d. split; [|done].
      unfold mbind, M_bind. simpl. unfold mbind, M_bind in Hrun. by rewrite Hrun.
Qed.

(** A call of [scatter] on any context. *)
Lemma scatter_outcome (timed : bool) c w :
  scatter timed {| this := c; world := w |} = Crash OutOfRange \/
  exists sp,
    scatter timed {| this := c; world := w |} =
      Ok tt (kernel_result timed (set_sparse sp c) w) /\
    length sp = length (sparse c).
Proof.
  unfold scatter. destruct timed; simpl when.
  - pose (c0 := set_timer {| started := Some (clock (clock_reads w));
                             bracket := bracket (timer c) |} c).
    destruct (scatter_loop_outcome (length (pattern c)) 0 c0 (tick_clock w))
      as [Hc|(sp & Hrun & Hlen)].
    + left. step_with (timer_start_run c w). step_with pattern_size_run.
      by apply run_bind_Crash.
    + right. exists sp. split; [|done].
      step_with (timer_start_run c w). step_with pattern_size_run.
      step_with Hrun. by rewrite (timer_epilogue_run _ _ (clock (clock_reads w))).
  - destruct (scatter_loop_outcome (length (pattern c)) 0 c w)
      as [Hc|(sp & Hrun & Hlen)].
    + left. erewrite run_bind_Ok by reflexivity. step_with pattern_size_run.
      by apply run_bind_Crash.
    + right. exists sp. split; [|done].
      unfold mbind, M_bind. simpl. unfold mbind, M_bind in Hrun. by rewrite Hrun.
Qed.

(** One timed kernel call on any context: unless it runs into an access
    out of range, it reads the clock twice and leaves in [time_seconds]
    the duration between these two readings. *)
Lemma timed_kernel_call_outcome (k : call) (s : State) :
  timed_kernel_call k ->
  perform k s = Crash OutOfRange \/
  exists s',
    perform k s = Ok tt s' /\
    clock_reads (world s') = S (S (clock_reads (world s))) /\
    time_seconds (this s') =
      duration (clock (clock_reads (world s)))
               (clock (S (clock_reads (world s)))).
Proof.
  destruct s as [c w]. simpl. intros [->| ->]; simpl perform.
  - destruct (gather_outcome true c w) as [Hc|(d & Hrun & _)]; [by left|].
    right. eexists. split; [exact Hrun|done].
  - destruct (scatter_outcome true c w) as [Hc|(sp & Hrun & _)]; [by left|].
    right. eexists. split; [exact Hrun|done].
Qed.

Lemma perform_all_app_inv (ks1 ks2 : list call) : forall s s' : State,
  perform_all (ks1 ++ ks2) s = Ok tt s' ->
  exists s1, perform_all ks1 s = Ok tt s1 /\ perform_all ks2 s1 = Ok tt s'.
Proof.
  induction ks1 as [|k ks1 IH]; intros s s' H; simpl in *.
  - by exists s.
  - unfold mbind, M_bind in *.
    destruct (perform k s) as [[] s0| |]; [|done..]. by apply IH.
Qed.

(** A sequence of timed kernel calls that returns has read the clock
    twice per call. *)
Lemma timed_calls_clock (ks : list call) : forall s s' : State,
  Forall timed_kernel_call ks ->
  perform_all ks s = Ok tt s' ->
  clock_reads (world s') = (clock_reads (world s) + 2 * length ks)%nat.
Proof.
  induction ks as [|k ks IH]; intros s s' HF Hrun.
  - simpl in Hrun. injection Hrun as <-. simpl. lia.
  - inversion HF as [|? ? Hk HF']; subst. simpl in Hrun.
    destruct (timed_kernel_call_outcome k s Hk) as [Hc|(s1 & Hk1 & Hc1 & _)].
    + by rewrite (run_bind_Crash _ _ _ _ Hc) in Hrun.
    + rewrite (run_bind_Ok _ _ _ _ _ Hk1) in Hrun.
      rewrite (IH s1 s' HF' Hrun), Hc1. simpl. lia.
Qed.

(** A context the constructor built from a pattern of values below
    [SIZE_MAX] has this pattern, which is not empty, and buffers that the
    pattern fits. *)
Lemma built_fits (p : list Z) (s : State) :
  Forall (fun x => 0 <= x < SIZE_MAX) p ->
  built p s ->
  p <> [] /\ pattern (this s) = p /\ in_bounds (this s).
Proof.
  intros Hrange (k & n & v & w & s0 & ks & Hnew & Hcalls).
  assert (Hne : p <> []).
  { intros ->. unfold Configuration_Serial, setup in Hnew.
    rewrite banner_then_setup in Hnew.
    unfold ConfigurationBase_setup, mbind, M_bind in Hnew. simpl in Hnew.
    discriminate. }
  destruct (Configuration_Serial_sizing k p n v w Hne Hrange)
    as (s0' & Hnew' & Hp & _ & Hb).
  rewrite Hnew in Hnew'. injection Hnew' as <-.
  destruct (perform_all_keeps_buffers ks s0 Hb) as (s' & Hrun & Hp' & Hd' & Hs').
  rewrite Hcalls in Hrun. injection Hrun as <-.
  split; [done|]. split; [congruence|].
  by apply (in_bounds_transfer (this s0)).
Qed.

(** C1 (amended). On every context the constructor built, under any
    kernel name, from a non-empty pattern of [size_t] values below
    [SIZE_MAX], a call to [gather], timed or not, completes and sets, for
    every position [i] of the pattern, [dense[i]] to the element
    [sparse[pattern[i]]], which exists; the dense buffer is as long as the
    pattern.  In particular, with the pattern [0,1,2,3] and a sparse
    buffer that starts with [s0,s1,s2,s3], the dense buffer it leaves is
    exactly [s0,s1,s2,s3]. *)
Theorem gather_sets_dense (p : list Z) (timed : bool) (s : State) :
  p <> [] ->
  Forall (fun x => 0 <= x < SIZE_MAX) p ->
  built p s ->
  exists s',
    gather timed s = Ok tt s' /\
    length (dense (this s')) = length p /\
    (forall (i : nat) (x : Z),
       p !! i = Some x ->
       exists v, sparse (this s) !! Z.to_nat x = Some v /\
                 dense (this s') !! i = Some v) /\
    (forall s0 s1 s2 s3 rest,
       p = [0; 1; 2; 3] ->
       sparse (this s) = s0 :: s1 :: s2 :: s3 :: rest ->
       dense (this s') = [s0; s1; s2; s3]).
Proof.
  intros _ Hrange Hbuilt.
  destruct (built_fits p s Hrange Hbuilt) as (_ & Hp & Hb).
  destruct (gather_on_fitting_context timed s Hb)
    as (s' & Hrun & Hlen & Hget & Hfour).
  rewrite Hp in Hlen, Hget, Hfour.
  exists s'. split; [done|]. split; [done|]. split; [|done].
  intros i x Hx. destruct Hb as [_ HF]. rewrite Hp in HF.
  rewrite Forall_lookup in HF. specialize (HF i x Hx).
  destruct (lookup_lt_is_Some_2 (sparse (this s)) (Z.to_nat x)) as [v Hv];
    [lia|].
  exists v. split; [done|]. by rewrite (Hget i x Hx).
Qed.

(** C2 (amended). On every context the constructor built from a pattern
    of [size_t] values below [SIZE_MAX], with or without repeated
    indices, the Serial [scatter], timed or not, completes; a sparse slot
    [j] that occurs in the pattern holds the former [dense[i_last]], where
    [i_last] is the largest position with [pattern[i_last] = j], and a
    sparse slot whose index does not occur in the pattern keeps its value.
    The result is determined by the pattern and the two buffers: any call
    of [scatter] on a context built from the same pattern with the same
    dense and sparse buffers leaves the same sparse buffer, whatever the
    rest of the context and the timing. *)
Theorem scatter_last_index_wins (p : list Z) (timed : bool) (s : State) :
  Forall (fun x => 0 <= x < SIZE_MAX) p ->
  built p s ->
  exists s',
    scatter timed s = Ok tt s' /\
    length (sparse (this s')) = length (sparse (this s)) /\
    (forall (j : Z) (i_last : nat),
       p !! i_last = Some j ->
       (forall i, (i_last < i)%nat -> p !! i <> Some j) ->
       sparse (this s') !! Z.to_nat j = dense (this s) !! i_last) /\
    (forall j : nat,
       Z.of_nat j ∉ p ->
       sparse (this s') !! j = sparse (this s) !! j) /\
    (forall (timed2 : bool) (s2 : State),
       built p s2 ->
       dense (this s2) = dense (this s) ->
       sparse (this s2) = sparse (this s) ->
       exists s2',
         scatter timed2 s2 = Ok tt s2' /\
         sparse (this s2') = sparse (this s')).
Proof.
  intros Hrange Hbuilt.
  destruct (built_fits p s Hrange Hbuilt) as (_ & Hp & Hb).
  destruct (scatter_on_fitting_context timed s Hb)
    as (s' & Hrun & Hlen & Hlast & Hfree).
  rewrite Hp in Hlast, Hfree.
  exists s'. split; [done|]. split; [done|]. split; [done|]. split; [done|].
  intros timed2 s2 Hbuilt2 Hd2 Hs2.
  destruct (built_fits p s2 Hrange Hbuilt2) as (_ & Hp2 & Hb2).
  destruct (scatter_on_fitting_context timed2 s2 Hb2)
    as (s2' & Hrun2 & Hlen2 & Hlast2 & Hfree2).
  rewrite Hp2 in Hlast2, Hfree2.
  exists s2'. split; [done|]. apply list_eq. intros j.
  destruct (decide (Z.of_nat j ∈ p)) as [Hin|Hout].
  - destruct (last_occurrence _ _ Hin) as (i & Hi & Hafter).
    pose proof (Hlast _ i Hi Hafter) as H1.
    pose proof (Hlast2 _ i Hi Hafter) as H2.
    rewrite Nat2Z.id in H1, H2. congruence.
  - rewrite (Hfree j Hout), (Hfree2 j Hout). congruence.
Qed.

(** C3 (amended). For every non-empty pattern of [size_t] values below
    [SIZE_MAX] with no repeated index, on every context the constructor
    built from it, [gather] followed by [scatter] completes, restores
    every sparse slot whose index occurs in the pattern to its value
    before the [gather], and leaves every other sparse slot unchanged. *)
Theorem gather_then_scatter_restores
  (p : list Z) (t1 t2 : bool) (s : State) :
  p <> [] ->
  NoDup p ->
  Forall (fun x => 0 <= x < SIZE_MAX) p ->
  built p s ->
  exists s',
    (gather t1 ;; scatter t2) s = Ok tt s' /\
    (forall j : nat,
       Z.of_nat j ∈ p ->
       sparse (this s') !! j = sparse (this s) !! j) /\
    (forall j : nat,
       Z.of_nat j ∉ p ->
       sparse (this s') !! j = sparse (this s) !! j).
Proof.
  intros _ _ Hrange Hbuilt.
  destruct (built_fits p s Hrange Hbuilt) as (_ & _ & Hb).
  destruct (gather_scatter_sparse t1 t2 s Hb) as (s' & Hrun & Hsp).
  exists s'. split; [done|]. rewrite Hsp. done.
Qed.

(** C9 (amended). A sequence of timed [gather] and [scatter] calls on
    the Serial context that returns leaves in [time_seconds] the duration
    of the start/stop bracket of its last call alone (the two clock
    readings that call took): each timed call overwrites the value, none
    adds to it.  On a context the constructor built from a pattern of
    [size_t] values below [SIZE_MAX] every such sequence returns. *)
Theorem timed_call_overwrites_time_seconds
  (p : list Z) (ks : list call) (k : call) (s : State) :
  Forall timed_kernel_call (ks ++ [k]) ->
  let r := (clock_reads (world s) + 2 * length ks)%nat in
  (forall s',
     perform_all (ks ++ [k]) s = Ok tt s' ->
     time_seconds (this s') = duration (clock r) (clock (S r))) /\
  (Forall (fun x => 0 <= x < SIZE_MAX) p ->
   built p s ->
   exists s', perform_all (ks ++ [k]) s = Ok tt s').
Proof.
  intros HF r. split.
  - intros s' Hrun. apply Forall_app in HF as [HF Hk].
    inversion Hk as [|? ? Hk' _]; subst.
    destruct (perform_all_app_inv _ _ _ _ Hrun) as (s1 & Hrun1 & Hlast).
    pose proof (timed_calls_clock ks s s1 HF Hrun1) as Hc1.
    simpl in Hlast.
    destruct (timed_kernel_call_outcome k s1 Hk') as [Hc|(s2 & Hk2 & _ & Ht)].
    + by rewrite (run_bind_Crash _ _ _ _ Hc) in Hlast.
    + rewrite (run_bind_Ok _ _ _ _ _ Hk2) in Hlast.
      injection Hlast as <-. rewrite Ht, Hc1. done.
  - intros Hrange Hbuilt.
    destruct (built_fits p s Hrange Hbuilt) as (_ & _ & Hb).
    destruct (timed_calls_on_fitting_context ks k s HF Hb) as (s' & Hrun & _).
    by exists s'.
Qed.

(** C10. On any Serial context, a call of [gather] that returns has
    changed the dense buffer only (the sparse buffer and the pattern are
    as before), a call of [scatter] that returns has changed the sparse
    buffer only (the dense buffer and the pattern are as before), and for
    both kernels a call with [timed = false] leaves [time_seconds], and
    indeed everything but that one buffer, as it was.  The only way
    either call does not return is an access out of range, and both
    return on a context whose buffers the pattern fits. *)
Theorem kernels_frame (timed : bool) (s s' : State) :
  (gather timed s = Ok tt s' ->
   sparse (this s') = sparse (this s) /\
   pattern (this s') = pattern (this s) /\
   (timed = false ->
    time_seconds (this s') = time_seconds (this s) /\
    exists d, s' = {| this := set_dense d (this s); world := world s |})) /\
  (scatter timed s = Ok tt s' ->
   dense (this s') = dense (this s) /\
   pattern (this s') = pattern (this s) /\
   (timed = false ->
    time_seconds (this s') = time_seconds (this s) /\
    exists sp, s' = {| this := set_sparse sp (this s); world := world s |})) /\
  (gather timed s = Crash OutOfRange \/ exists s1, gather timed s = Ok tt s1) /\
  (scatter timed s = Crash OutOfRange \/
   exists s1, scatter timed s = Ok tt s1) /\
  (in_bounds (this s) ->
   (exists s1, gather timed s = Ok tt s1) /\
   (exists s1, scatter timed s = Ok tt s1)).
Proof.
  destruct s as [c w]. simpl.
  split; [|split; [|split; [|split]]].
  - intros Hrun.
    destruct (gather_outcome timed c w) as [Hc|(d & Hd & _)]; [congruence|].
    rewrite Hd in Hrun. injection Hrun as <-.
    destruct (kernel_result_frame timed (set_dense d c) w)
      as (_ & Hp & Hs & _).
    split; [exact Hs|]. split; [exact Hp|].
    intros ->. split; [done|]. by exists d.
  - intros Hrun.
    destruct (scatter_outcome timed c w) as [Hc|(sp & Hsp & _)]; [congruence|].
    rewrite Hsp in Hrun. injection Hrun as <-.
    destruct (kernel_result_frame timed (set_sparse sp c) w)
      as (_ & Hp & _ & Hd & _).
    split; [exact Hd|]. split; [exact Hp|].
    intros ->. split; [done|]. by exists sp.
  - destruct (gather_outcome timed c w) as [Hc|(d & Hd & _)]; [by left|].
    right. by eexists.
  - destruct (scatter_outcome timed c w) as [Hc|(sp & Hsp & _)]; [by left|].
    right. by eexists.
  - intros Hb. split.
    + destruct (gather_run timed c w Hb) as (d & Hrun & _). by eexists.
    + destruct (scatter_run timed c w Hb) as (sp & Hrun & _). by eexists.
Qed.

End Properties.

(** * The model at concrete inputs *)

Lemma gather_demo_in_bounds : in_bounds (this gather_demo).
Proof. split; [reflexivity|]. repeat constructor; simpl; lia. Defined.

Lemma scatter_demo_in_bounds : in_bounds (this scatter_demo).
Proof. split; [reflexivity|]. repeat constructor; simpl; lia. Defined.

Lemma roundtrip_demo_in_bounds : in_bounds (this roundtrip_demo).
Proof. split; [reflexivity|]. repeat constructor; simpl; lia. Defined.

(** The contexts the constructor builds from three patterns of small
    values. *)
Lemma fresh_context_built : built [0; 1; 2; 3] fresh_context.
Proof.
  exists "gather", 10, 0, quiet_world, fresh_context, [].
  split; reflexivity.
Defined.

Lemma mixed_case_context_built : built [3; 0; 2; 3] mixed_case_context.
Proof.
  exists "GaTheR", 10, 0, quiet_world, mixed_case_context, [].
  split; reflexivity.
Defined.

Lemma roundtrip_context_built : built [2; 0; 3] roundtrip_context.
Proof.
  exists "gather", 10, 0, quiet_world, roundtrip_context, [].
  split; reflexivity.
Defined.

(** The context the constructor builds from the pattern [SIZE_MAX] has an
    empty sparse buffer, which its only pattern entry does not fit. *)
Lemma size_max_context_entry :
  pattern (this size_max_context) !! 0%nat = Some SIZE_MAX /\
  (length (dense (this size_max_context)) <= 0 \/
   length (sparse (this size_max_context)) <= Z.to_nat SIZE_MAX)%nat.
Proof. split; [reflexivity|]. right. exact (Nat.le_0_l _). Qed.

(** The constructor accepts the kernel "gather" and the non-empty
    pattern [SIZE_MAX]; on the context it builds [gather] reads the empty
    sparse buffer out of range, so no dense element is set. *)
Lemma gather_sets_dense_counterexample :
  [SIZE_MAX] <> [] /\
  Configuration_Serial "gather" [SIZE_MAX] 10 0 quiet_world =
    Ok tt size_max_context /\
  built [SIZE_MAX] size_max_context /\
  forall timed, gather timed size_max_context = Crash OutOfRange.
Proof.
  split; [discriminate|]. split; [reflexivity|]. split.
  - exists "gather", 10, 0, quiet_world, size_max_context, [].
    split; reflexivity.
  - intros timed. destruct size_max_context_entry as [Hp Hbad].
    exact (proj1 (kernels_misfit timed (this size_max_context)
                    (world size_max_context) 0 SIZE_MAX Hp Hbad)).
Qed.

Lemma gather_sets_dense_witness :
  [0; 1; 2; 3] <> [] /\
  Forall (fun x => 0 <= x < SIZE_MAX) [0; 1; 2; 3] /\
  built [0; 1; 2; 3] fresh_context /\
  exists s',
    gather true fresh_context = Ok tt s' /\
    dense (this s') = doubles [31; 38; 45; 52].
Proof.
  assert (Hne : [0; 1; 2; 3] <> []) by discriminate.
  assert (Hr : Forall (fun x => 0 <= x < SIZE_MAX) [0; 1; 2; 3]).
  { repeat constructor; unfold SIZE_MAX; simpl; lia. }
  split; [exact Hne|]. split; [exact Hr|].
  split; [exact fresh_context_built|].
  destruct (gather_sets_dense [0; 1; 2; 3] true fresh_context Hne Hr
              fresh_context_built) as (s' & Hrun & _ & _ & Hdense).
  exists s'. split; [exact Hrun|].
  exact (Hdense _ _ _ _ _ eq_refl eq_refl).
Defined.

(** On the context the constructor builds from the pattern [SIZE_MAX],
    [scatter] writes the empty sparse buffer out of range: no slot
    receives a dense element. *)
Lemma scatter_last_index_wins_counterexample :
  Configuration_Serial "gather" [SIZE_MAX] 10 0 quiet_world =
    Ok tt size_max_context /\
  pattern (this size_max_context) = [SIZE_MAX] /\
  built [SIZE_MAX] size_max_context /\
  forall timed, scatter timed size_max_context = Crash OutOfRange.
Proof.
  split; [reflexivity|]. split; [reflexivity|]. split.
  - exists "gather", 10, 0, quiet_world, size_max_context, [].
    split; reflexivity.
  - intros timed. destruct size_max_context_entry as [Hp Hbad].
    exact (proj2 (kernels_misfit timed (this size_max_context)
                    (world size_max_context) 0 SIZE_MAX Hp Hbad)).
Qed.

Lemma scatter_last_index_wins_witness :
  Forall (fun x => 0 <= x < SIZE_MAX) [3; 0; 2; 3] /\
  built [3; 0; 2; 3] mixed_case_context /\
  exists s',
    scatter true mixed_case_context = Ok tt s' /\
    sparse (this s') !! 3%nat = Some (double_of_Z 24) /\
    sparse (this s') !! 1%nat = Some (double_of_Z 38).
Proof.
  assert (Hr : Forall (fun x => 0 <= x < SIZE_MAX) [3; 0; 2; 3]).
  { repeat constructor; unfold SIZE_MAX; simpl; lia. }
  split; [exact Hr|]. split; [exact mixed_case_context_built|].
  destruct (scatter_last_index_wins [3; 0; 2; 3] true mixed_case_context Hr
              mixed_case_context_built)
    as (s' & Hrun & _ & Hlast & Hfree & _).
  exists s'. split; [exact Hrun|]. split.
  - apply (Hlast 3 3%nat); [reflexivity|].
    intros [|[|[|[|i]]]] Hi; simpl; first [lia | discriminate].
  - apply (Hfree 1%nat).
    rewrite !elem_of_cons, elem_of_nil. lia.
Defined.

(** The pattern [SIZE_MAX] is not empty and has no repeated index, and
    the constructor accepts it; on the context it builds, [gather]
    followed by [scatter] stops at the first access, out of range. *)
Lemma gather_then_scatter_restores_counterexample :
  [SIZE_MAX] <> [] /\
  NoDup [SIZE_MAX] /\
  built [SIZE_MAX] size_max_context /\
  forall t1 t2,
    (gather t1 ;; scatter t2) size_max_context = Crash OutOfRange.
Proof.
  split; [discriminate|]. split.
  { apply NoDup_singleton. }
  split.
  - exists "gather", 10, 0, quiet_world, size_max_context, [].
    split; reflexivity.
  - intros t1 t2. apply run_bind_Crash.
    destruct size_max_context_entry as [Hp Hbad].
    exact (proj1 (kernels_misfit t1 (this size_max_context)
                    (world size_max_context) 0 SIZE_MAX Hp Hbad)).
Qed.

Lemma gather_then_scatter_restores_witness :
  [2; 0; 3] <> [] /\
  NoDup [2; 0; 3] /\
  Forall (fun x => 0 <= x < SIZE_MAX) [2; 0; 3] /\
  built [2; 0; 3] roundtrip_context /\
  exists s',
    (gather true ;; scatter false) roundtrip_context = Ok tt s' /\
    sparse (this s') !! 2%nat = Some (double_of_Z 38) /\
    sparse (this s') !! 1%nat = Some (double_of_Z 31).
Proof.
  assert (Hne : [2; 0; 3] <> []) by discriminate.
  assert (Hnd : NoDup [2; 0; 3]).
  { repeat constructor; rewrite ?elem_of_cons, ?elem_of_nil; lia. }
  assert (Hr : Forall (fun x => 0 <= x < SIZE_MAX) [2; 0; 3]).
  { repeat constructor; unfold SIZE_MAX; simpl; lia. }
  split; [exact Hne|]. split; [exact Hnd|]. split; [exact Hr|].
  split; [exact roundtrip_context_built|].
  destruct (gather_then_scatter_restores [2; 0; 3] true false
              roundtrip_context Hne Hnd Hr roundtrip_context_built)
    as (s' & Hrun & Hin & Hout).
  exists s'. split; [exact Hrun|]. split.
  - apply (Hin 2%nat). rewrite !elem_of_cons. lia.
  - apply (Hout 1%nat). rewrite !elem_of_cons, elem_of_nil. lia.
Defined.

(** The pattern [SIZE_MAX]: [max_pattern_val + 1] wraps to 0, [setup]
    completes with an empty sparse buffer, and the sizing the data model
    asks for does not hold. *)
Lemma buffer_sizing_counterexample :
  [SIZE_MAX] <> [] /\
  Configuration_Serial "gather" [SIZE_MAX] 10 0 quiet_world =
    Ok tt size_max_context /\
  length (sparse (this size_max_context)) = 0%nat /\
  ~ buffer_sizing (this size_max_context).
Proof.
  split; [discriminate|]. split; [reflexivity|]. split; [reflexivity|].
  intros (_ & m & [Hin _] & Hlen).
  apply list_elem_of_singleton in Hin. subst m. vm_compute in Hlen.
  discriminate.
Qed.

Lemma buffer_sizing_after_setup_witness :
  [3; 0; 2; 3] <> [] /\
  Forall (fun x => 0 <= x < SIZE_MAX) [3; 0; 2; 3] /\
  exists s : @State counting_platform,
    Configuration_Serial "gather" [3; 0; 2; 3] 10 0 quiet_world = Ok tt s /\
    length (dense (this s)) = 4%nat /\
    length (sparse (this s)) = 4%nat /\
    exists s',
      perform_all [Gather true; Scatter false; Run true; Report] s = Ok tt s' /\
      buffer_sizing (this s').
Proof.
  assert (Hne : [3; 0; 2; 3] <> []) by discriminate.
  assert (Hr : Forall (fun x => 0 <= x < SIZE_MAX) [3; 0; 2; 3]).
  { repeat constructor; unfold SIZE_MAX; simpl; lia. }
  split; [exact Hne|]. split; [exact Hr|].
  destruct (buffer_sizing_after_setup (platform := counting_platform)
              "gather" [3; 0; 2; 3] 10 0 quiet_world Hne Hr)
    as (s & Hrun & Hp & (Hd & m & [Hin Hmax] & Hs) & Hkeep).
  exists s. split; [exact Hrun|]. rewrite Hp in *. split; [exact Hd|]. split.
  - assert (m = 3) as ->; [|lia].
    pose proof (Hmax 3 ltac:(rewrite !elem_of_cons; lia)).
    rewrite !elem_of_cons, elem_of_nil in Hin. lia.
  - destruct (Hkeep [Gather true; Scatter false; Run true; Report])
      as (s' & Hrun' & _ & Hsize).
    exists s'. split; [exact Hrun'|exact Hsize].
Defined.


(** A context straight from the constructor has [time_seconds] zero, and
    its [report] writes an infinite bandwidth. *)
Lemma report_zero_time_counterexample :
  Configuration_Serial "gather" [0; 1; 2; 3] 10 0 quiet_world =
    Ok tt fresh_context /\
  time_seconds (this fresh_context) = dzero /\
  exists s',
    report fresh_context = Ok tt s' /\
    cout (world s') =
      [Str "Spatter Serial Report"; Endl;
       UInt 320; Str " Total Bytes Moved"; Endl;
       UInt 32; Str " Bytes Moved per Run"; Endl;
       UInt 10; Str " Runs took "; Fixed; Dbl dzero; Str " Seconds"; Endl;
       Str "Average Bandwidth: "; Dbl (S754_infinity false); Str " MB/s";
       Endl].
Proof.
  split; [reflexivity|]. split; [reflexivity|].
  eexists. split; [apply report_run|reflexivity].
Qed.

Lemma report_zero_time_unguarded_witness :
  time_seconds (this fresh_context) = S754_zero false /\
  exists s',
    report fresh_context = Ok tt s' /\
    average_bandwidth (this fresh_context) = S754_infinity false.
Proof.
  split; [reflexivity|].
  destruct (report_zero_time_unguarded fresh_context false eq_refl)
    as (s' & Hrun & _ & _ & _ & Hinf).
  exists s'. split; [exact Hrun|]. apply Hinf. discriminate.
Defined.

(** With [nruns = 2^61] and a pattern of one element, the product
    [nruns * 1 * 8] is [2^64] and the total [report] writes is 0. *)
Lemma report_total_counterexample :
  Configuration_Serial "gather" [0] (2 ^ 61) 0 quiet_world =
    Ok tt many_runs_context /\
  is_size_t (nruns (this many_runs_context)) /\
  nruns (this many_runs_context) *
    Z.of_nat (length (pattern (this many_runs_context))) * 8 = 2 ^ 64 /\
  total_bytes_moved (this many_runs_context) = 0 /\
  exists s',
    report many_runs_context = Ok tt s' /\
    cout (world s') !! 2%nat = Some (UInt 0).
Proof.
  split; [reflexivity|]. split; [by split|]. split; [reflexivity|].
  split; [reflexivity|].
  eexists. split; [apply report_run|reflexivity].
Qed.

Lemma report_figures_witness :
  nruns (this report_demo) = 10 /\
  Z.of_nat (length (pattern (this report_demo))) = 4 /\
  time_seconds (this report_demo) = double_of_Z 1 /\
  total_bytes_moved (this report_demo) = 320 /\
  bytes_moved_per_run (this report_demo) = 32 /\
  rounds_ratio 32 100000 (average_bandwidth (this report_demo)).
Proof.
  split; [reflexivity|]. split; [reflexivity|]. split; [reflexivity|].
  exact (proj2 (proj2 (proj2 (proj2 (proj2 (proj2
           (report_figures report_demo)))))) eq_refl eq_refl eq_refl).
Defined.

(** A timed [gather] on the context the constructor builds from the
    pattern [SIZE_MAX] starts the timer and then reads the empty sparse
    buffer out of range: the call completes no bracket and records no
    duration. *)
Lemma timed_call_overwrites_time_seconds_counterexample :
  built [SIZE_MAX] size_max_context /\
  Forall timed_kernel_call [Gather true] /\
  perform_all [Gather true] size_max_context = Crash OutOfRange /\
  perform_all [Scatter true] size_max_context = Crash OutOfRange.
Proof.
  destruct size_max_context_entry as [Hp Hbad].
  split; [|split; [|split]].
  - exists "gather", 10, 0, quiet_world, size_max_context, [].
    split; reflexivity.
  - constructor; [by left|constructor].
  - apply run_bind_Crash.
    exact (proj1 (kernels_misfit true (this size_max_context)
                    (world size_max_context) 0 SIZE_MAX Hp Hbad)).
  - apply run_bind_Crash.
    exact (proj2 (kernels_misfit true (this size_max_context)
                    (world size_max_context) 0 SIZE_MAX Hp Hbad)).
Qed.

Lemma timed_call_overwrites_time_seconds_witness :
  Forall timed_kernel_call ([Gather true; Scatter true] ++ [Gather true]) /\
  Forall (fun x => 0 <= x < SIZE_MAX) [0; 1; 2; 3] /\
  built [0; 1; 2; 3] fresh_context /\
  exists s',
    perform_all ([Gather true; Scatter true] ++ [Gather true]) fresh_context =
      Ok tt s' /\
    time_seconds (this s') = double_of_Z 9.
Proof.
  assert (HF : Forall timed_kernel_call
                 ([Gather true; Scatter true] ++ [Gather true])).
  { simpl. constructor; [by left|]. constructor; [by right|].
    constructor; [by left|]. constructor. }
  assert (Hr : Forall (fun x => 0 <= x < SIZE_MAX) [0; 1; 2; 3]).
  { repeat constructor; unfold SIZE_MAX; simpl; lia. }
  split; [exact HF|]. split; [exact Hr|].
  split; [exact fresh_context_built|].
  destruct (timed_call_overwrites_time_seconds [0; 1; 2; 3]
              [Gather true; Scatter true] (Gather true) fresh_context HF)
    as [Hlast Hreturns].
  destruct (Hreturns Hr fresh_context_built) as (s' & Hrun).
  exists s'. split; [exact Hrun|]. exact (Hlast s' Hrun).
Defined.

Lemma fresh_context_in_bounds : in_bounds (this fresh_context).
Proof. split; [reflexivity|]. repeat constructor; simpl; lia. Defined.

Lemma kernels_frame_witness :
  gather false fresh_context = Ok tt gathered_context /\
  scatter true fresh_context = Ok tt scattered_context /\
  in_bounds (this fresh_context) /\
  sparse (this gathered_context) = sparse (this fresh_context) /\
  pattern (this gathered_context) = [0; 1; 2; 3] /\
  time_seconds (this gathered_context) = dzero /\
  world gathered_context = world fresh_context /\
  dense (this scattered_context) = dense (this fresh_context) /\
  pattern (this scattered_context) = [0; 1; 2; 3] /\
  (exists s1, gather true fresh_context = Ok tt s1) /\
  (exists s1, scatter false fresh_context = Ok tt s1).
Proof.
  assert (Hg : gather false fresh_context = Ok tt gathered_context)
    by reflexivity.
  assert (Hs : scatter true fresh_context = Ok tt scattered_context)
    by reflexivity.
  split; [exact Hg|]. split; [exact Hs|].
  split; [exact fresh_context_in_bounds|].
  destruct (kernels_frame false fresh_context gathered_context)
    as (Hgather & _ & _ & _ & Hfit).
  destruct (Hgather Hg) as (Hsp & Hp & Huntimed).
  destruct (Huntimed eq_refl) as (Ht & d & Hd).
  destruct (kernels_frame true fresh_context scattered_context)
    as (_ & Hscatter & _ & _ & Hfit').
  destruct (Hscatter Hs) as (Hde & Hp' & _).
  split; [exact Hsp|]. split; [exact Hp|]. split; [exact Ht|].
  split; [by rewrite Hd|]. split; [exact Hde|]. split; [exact Hp'|].
  split.
  - exact (proj1 (Hfit' fresh_context_in_bounds)).
  - exact (proj2 (Hfit fresh_context_in_bounds)).
Defined.

(** * The further properties at concrete inputs *)

Lemma misfit_demo_entry :
  pattern (this misfit_demo) !! 1%nat = Some 5 /\
  (length (dense (this misfit_demo)) <= 1 \/
   length (sparse (this misfit_demo)) <= Z.to_nat 5)%nat.
Proof. split; [reflexivity|]. right. simpl. lia. Defined.

Lemma constructor_fills_buffers_from_rand_witness :
  [3; 0; 2; 3] <> [] /\
  exists s : @State counting_platform,
    Configuration_Serial "gather" [3; 0; 2; 3] 10 0 quiet_world = Ok tt s /\
    dense (this s) !! 1%nat = Some (double_of_Z 10) /\
    sparse (this s) !! 0%nat = Some (double_of_Z 31) /\
    rand_calls (world s) = 8%nat.
Proof.
  assert (Hne : [3; 0; 2; 3] <> []) by discriminate.
  split; [exact Hne|].
  destruct (constructor_fills_buffers_from_rand (platform := counting_platform)
              "gather" [3; 0; 2; 3] 10 0 quiet_world Hne)
    as (s & Hrun & _ & _ & _ & _ & _ & _ & _ & Hd & Hs & Hr & _).
  exists s. split; [exact Hrun|]. split; [|split].
  - apply (Hd 1%nat). simpl. lia.
  - apply (Hs 0%nat). vm_compute. lia.
  - exact Hr.
Defined.

Lemma gather_repeats_change_nothing_witness :
  in_bounds (this gather_demo) /\
  exists s1,
    gather true gather_demo = Ok tt s1 /\
    gather false s1 = Ok tt s1 /\
    exists s2,
      perform_all (Gather <$> [true; false; true]) s1 = Ok tt s2 /\
      dense (this s2) = dense (this s1).
Proof.
  split; [exact gather_demo_in_bounds|].
  destruct (gather_repeats_change_nothing true gather_demo
              gather_demo_in_bounds) as (s1 & Hrun & Hfix & Hrep).
  exists s1. split; [exact Hrun|]. split; [exact Hfix|].
  destruct (Hrep [true; false; true]) as (s2 & Hrun2 & Hd & _).
  exists s2. split; [exact Hrun2|exact Hd].
Defined.

Lemma scatter_repeats_change_nothing_witness :
  in_bounds (this scatter_demo) /\
  exists s1,
    scatter true scatter_demo = Ok tt s1 /\
    scatter false s1 = Ok tt s1 /\
    exists s2,
      perform_all (Scatter <$> [false; true]) s1 = Ok tt s2 /\
      sparse (this s2) = sparse (this s1).
Proof.
  split; [exact scatter_demo_in_bounds|].
  destruct (scatter_repeats_change_nothing true scatter_demo
              scatter_demo_in_bounds) as (s1 & Hrun & Hfix & Hrep).
  exists s1. split; [exact Hrun|]. split; [exact Hfix|].
  destruct (Hrep [false; true]) as (s2 & Hrun2 & _ & Hs).
  exists s2. split; [exact Hrun2|exact Hs].
Defined.

Lemma scatter_then_gather_dense_witness :
  in_bounds (this roundtrip_demo) /\
  exists s',
    (scatter true ;; gather false) roundtrip_demo = Ok tt s' /\
    dense (this s') = doubles [0; 0; 0].
Proof.
  split; [exact roundtrip_demo_in_bounds|].
  destruct (scatter_then_gather_dense true false roundtrip_demo
              roundtrip_demo_in_bounds) as (s' & Hrun & _ & Hnd).
  exists s'. split; [exact Hrun|]. apply Hnd. simpl.
  repeat constructor; rewrite ?elem_of_cons, ?elem_of_nil; lia.
Defined.

Lemma timing_does_not_change_buffers_witness :
  in_bounds (this scatter_demo) /\
  exists st su,
    scatter true scatter_demo = Ok tt st /\
    scatter false scatter_demo = Ok tt su /\
    sparse (this st) = sparse (this su).
Proof.
  split; [exact scatter_demo_in_bounds|].
  destruct (timing_does_not_change_buffers scatter_demo scatter_demo_in_bounds)
    as (_ & st & su & Ht & Hu & _ & Hs).
  exists st, su. split; [exact Ht|]. split; [exact Hu|exact Hs].
Defined.

Lemma kernels_access_out_of_range_witness :
  pattern (this misfit_demo) !! 1%nat = Some 5 /\
  (length (dense (this misfit_demo)) <= 1 \/
   length (sparse (this misfit_demo)) <= Z.to_nat 5)%nat /\
  gather true misfit_demo = Crash OutOfRange /\
  scatter false misfit_demo = Crash OutOfRange.
Proof.
  destruct misfit_demo_entry as [Hp Hbad].
  split; [exact Hp|]. split; [exact Hbad|]. split.
  - exact (proj1 (kernels_access_out_of_range true misfit_demo 1 5 Hp Hbad)).
  - exact (proj1 (proj2
             (kernels_access_out_of_range false misfit_demo 1 5 Hp Hbad))).
Defined.

Lemma size_max_pattern_breaks_kernels_witness :
  Forall is_size_t [1; SIZE_MAX] /\
  SIZE_MAX ∈ [1; SIZE_MAX] /\
  exists s : @State counting_platform,
    Configuration_Serial "gather" [1; SIZE_MAX] 10 0 quiet_world = Ok tt s /\
    sparse (this s) = [] /\
    gather false s = Crash OutOfRange.
Proof.
  assert (Hp : Forall is_size_t [1; SIZE_MAX]).
  { repeat constructor; unfold SIZE_MAX; lia. }
  assert (Hin : SIZE_MAX ∈ [1; SIZE_MAX]).
  { apply elem_of_cons. right. apply elem_of_cons. by left. }
  split; [exact Hp|]. split; [exact Hin|].
  destruct (size_max_pattern_breaks_kernels (platform := counting_platform)
              "gather" [1; SIZE_MAX] 10 0 quiet_world false Hp Hin)
    as (s & Hrun & _ & Hs & Hg & _).
  exists s. split; [exact Hrun|]. split; [exact Hs|exact Hg].
Defined.

Lemma backwards_is_schedule : is_schedule [3; 1; 2; 0]%nat 4.
Proof. unfold is_schedule. simpl. solve_Permutation. Qed.

Lemma OpenMP_gather_any_schedule_witness :
  is_schedule [3; 1; 2; 0]%nat (length (pattern (this gather_demo))) /\
  in_bounds (this gather_demo) /\
  OpenMP_gather [3; 1; 2; 0]%nat true gather_demo = gather true gather_demo.
Proof.
  split; [exact backwards_is_schedule|].
  split; [exact gather_demo_in_bounds|].
  exact (OpenMP_gather_any_schedule [3; 1; 2; 0]%nat true gather_demo
           backwards_is_schedule gather_demo_in_bounds).
Defined.

Lemma rotated_is_schedule : is_schedule [1; 2; 0]%nat 3.
Proof. unfold is_schedule. simpl. solve_Permutation. Qed.

Lemma OpenMP_scatter_any_schedule_witness :
  NoDup (pattern (this roundtrip_demo)) /\
  is_schedule [1; 2; 0]%nat (length (pattern (this roundtrip_demo))) /\
  in_bounds (this roundtrip_demo) /\
  OpenMP_scatter [1; 2; 0]%nat false roundtrip_demo =
    scatter false roundtrip_demo.
Proof.
  assert (Hnd : NoDup (pattern (this roundtrip_demo))).
  { simpl. repeat constructor; rewrite ?elem_of_cons, ?elem_of_nil; lia. }
  split; [exact Hnd|]. split; [exact rotated_is_schedule|].
  split; [exact roundtrip_demo_in_bounds|].
  exact (OpenMP_scatter_any_schedule [1; 2; 0]%nat false roundtrip_demo
           Hnd rotated_is_schedule roundtrip_demo_in_bounds).
Defined.

Lemma bandwidth_is_a_nonnegative_number_witness :
  time_seconds (this report_demo) =
    S754_finite false 4503599627370496 (-52) /\
  nonneg_double (average_bandwidth (this report_demo)).
Proof.
  split; [reflexivity|].
  exact (proj1 (bandwidth_is_a_nonnegative_number (this report_demo)
                  4503599627370496 (-52) eq_refl)).
Defined.

Lemma operator_shl_identifies_configuration_witness :
  verbosity (this verbose_context) >= 2 /\
  verbosity (this chatty_context) >= 2 /\
  Forall (fun x => 0 <= x) (pattern (this verbose_context)) /\
  Forall (fun x => 0 <= x) (pattern (this chatty_context)) /\
  operator_shl (this verbose_context) = operator_shl (this chatty_context) /\
  nruns (this verbose_context) <> nruns (this chatty_context) /\
  kernel (this verbose_context) = kernel (this chatty_context) /\
  pattern (this verbose_context) = pattern (this chatty_context).
Proof.
  assert (Hv : verbosity (this verbose_context) >= 2) by (simpl; lia).
  assert (Hv' : verbosity (this chatty_context) >= 2) by (simpl; lia).
  assert (Hp : Forall (fun x => 0 <= x) (pattern (this verbose_context))).
  { simpl. repeat constructor; lia. }
  assert (Hp' : Forall (fun x => 0 <= x) (pattern (this chatty_context))).
  { simpl. repeat constructor; lia. }
  assert (Hout : operator_shl (this verbose_context) =
                 operator_shl (this chatty_context)) by reflexivity.
  split; [exact Hv|]. split; [exact Hv'|]. split; [exact Hp|].
  split; [exact Hp'|]. split; [exact Hout|]. split; [discriminate|].
  exact (operator_shl_identifies_configuration _ _ Hv Hv' Hp Hp' Hout).
Defined.
